(** * b64d: finding and decoding base64 strings embedded in text

    A shallow embedding of [main.go] and of the parts of the Go standard
    library it calls ([regexp], [strings], [encoding/base64], [unicode],
    [unicode/utf8], [bufio], [fmt]), followed by the properties of the
    pipeline stated in the specification.

    Conventions:
    - a Go [string] is a sequence of bytes: [list byte];
    - a Go [int] is a [Z]; every counter of the program stays far below
      2^63, so no wrap-around is written out;
    - standard output and the diagnostic stream are the byte sequences
      written to them. *)

From Stdlib Require Import List ZArith Lia Bool Arith String Ascii.
From Stdlib Require Import Init.Byte Strings.Byte DecimalString.
Import ListNotations.

Local Open Scope Z_scope.

(** ** Bytes and strings *)

Definition gostring := list byte.

Definition code (b : byte) : Z := Z.of_N (Byte.to_N b).

(** [byte(v)]: conversion of an unsigned integer to a byte keeps the low
    eight bits. *)
Definition byte_of_Z (v : Z) : byte :=
  match Byte.of_N (Z.to_N (v mod 256)) with
  | Some b => b
  | None => x00
  end.

(** A string literal of the source, as its bytes. *)
Definition B (s : string) : gostring := list_byte_of_string s.
Arguments B s%_string.

Definition len (s : gostring) : Z := Z.of_nat (List.length s).

Definition byte_eqb (a b : byte) : bool := Byte.eqb a b.

Fixpoint str_eqb (s t : gostring) : bool :=
  match s, t with
  | [], [] => true
  | a :: s', b :: t' => byte_eqb a b && str_eqb s' t'
  | _, _ => false
  end.

(** [in_range lo hi b]: the byte lies in the inclusive range of codes. *)
Definition in_range (lo hi : Z) (b : byte) : bool :=
  (lo <=? code b) && (code b <=? hi).

Definition is_byte (c : Z) (b : byte) : bool := code b =? c.

(** ** The constants and the configuration of [main.go] *)

Definition maxFileSize : Z := 100 * 1024 * 1024.
Definition maxMatches : Z := 10000.
Definition minB64Length : Z := 4.
Definition chunkSize : Z := 64 * 1024.

Record Config := mkConfig {
  urlSafe : bool;
  minLength : Z;
  maxSize : Z;
  verbose : bool;
  showOffset : bool
}.

(** The values the flags have when none is given on the command line. *)
Definition defaultConfig : Config :=
  mkConfig false minB64Length maxFileSize false false.

(** ** [regexp]: the two patterns

    Both patterns have the shape [class{4,}={0,2}] with a character class
    that does not contain ['=']; every member of the classes is an ASCII
    character, so matching bytes and matching runes agree.  A match at a
    position is therefore the longest run of class characters there,
    provided it has at least four of them, followed by as many ['='] as
    there are, up to two. *)

Definition isAlnum (b : byte) : bool :=
  in_range 65 90 b || in_range 97 122 b || in_range 48 57 b.

(** [[A-Za-z0-9+/]] *)
Definition stdClass (b : byte) : bool :=
  isAlnum b || is_byte 43 b || is_byte 47 b.

(** [[A-Za-z0-9\-_]] *)
Definition urlClass (b : byte) : bool :=
  isAlnum b || is_byte 45 b || is_byte 95 b.

Definition isPad (b : byte) : bool := is_byte 61 b.

(** The longest prefix whose elements satisfy [p], and what follows it. *)
Fixpoint span {A} (p : A -> bool) (l : list A) : list A * list A :=
  match l with
  | [] => ([], [])
  | x :: l' =>
      if p x then let (a, r) := span p l' in (x :: a, r) else ([], l)
  end.

(** At most [n] leading elements satisfying [p], and what follows them. *)
Fixpoint takeUpTo {A} (n : nat) (p : A -> bool) (l : list A)
  : list A * list A :=
  match n, l with
  | S k, x :: l' =>
      if p x then let (a, r) := takeUpTo k p l' in (x :: a, r) else ([], l)
  | _, _ => ([], l)
  end.

(** The match of [class{4,}={0,2}] that starts at the head of [s], with
    the text after it. *)
Definition matchAt (cls : byte -> bool) (s : gostring)
  : option (gostring * gostring) :=
  let (run, rest) := span cls s in
  if (4 <=? List.length run)%nat then
    let (pad, rest') := takeUpTo 2 isPad rest in
    Some (run ++ pad, rest')
  else None.

(** Leftmost matches, not overlapping: after a match the search goes on
    behind it, otherwise one byte further.  [fuel] bounds the number of
    positions tried. *)
Fixpoint findAllFrom (cls : byte -> bool) (fuel : nat) (s : gostring)
  : list gostring :=
  match fuel with
  | O => []
  | S f =>
      match s with
      | [] => []
      | _ :: s' =>
          match matchAt cls s with
          | Some (m, rest) => m :: findAllFrom cls f rest
          | None => findAllFrom cls f s'
          end
      end
  end.

(** [re.FindAllString(content, -1)] for a pattern of this shape. *)
Definition FindAllString (cls : byte -> bool) (content : gostring)
  : list gostring :=
  findAllFrom cls (List.length content) content.

Definition stdB64Pattern := stdClass.
Definition urlB64Pattern := urlClass.

(** ** [strings.TrimRight(s, "=")] *)

Fixpoint TrimRightPad (s : gostring) : gostring :=
  match s with
  | [] => []
  | c :: s' =>
      match TrimRightPad s' with
      | [] => if isPad c then [] else [c]
      | t => c :: t
      end
  end.

(** ** [isValidBase64Length] *)

Definition isValidBase64Length (s : gostring) : bool :=
  let s := TrimRightPad s in
  let rem := len s mod 4 in
  (rem =? 0) || (rem =? 2) || (rem =? 3).

(** ** [findBase64Patterns]

    [seen] is the set of keys of the Go map whose value is [true]. *)

Definition seenSet := list gostring.

Definition seenLookup (seen : seenSet) (m : gostring) : bool :=
  existsb (str_eqb m) seen.

Definition seenStore (seen : seenSet) (m : gostring) : seenSet := m :: seen.

(** One turn of either [for _, match := range ...] loop. *)
Definition collectMatch (config : Config)
  (st : list gostring * seenSet) (m : gostring) : list gostring * seenSet :=
  let (matches, seen) := st in
  if (config.(minLength) <=? len m) && isValidBase64Length m then
    if negb (seenLookup seen m) then (matches ++ [m], seenStore seen m)
    else st
  else st.

Definition findBase64Patterns (config : Config) (content : gostring)
  : list gostring :=
  let st := ([], []) in
  let st := fold_left (collectMatch config)
              (FindAllString stdB64Pattern content) st in
  let st :=
    if config.(urlSafe) then
      fold_left (collectMatch config)
        (FindAllString urlB64Pattern content) st
    else st in
  fst st.

(** ** [encoding/base64]

    [Encoding] as in the library: the alphabet (through its decode map,
    where 255 marks a byte outside the alphabet), the padding character
    ([None] for [NoPadding]) and the strict flag.  The offset carried by a
    [CorruptInputError] is never looked at by the program and is left out. *)

Inductive CorruptInputError := CorruptInput.

Record Encoding := mkEncoding {
  alphabet : gostring;
  padChar : option byte;
  strict : bool
}.

Fixpoint indexByte (c : byte) (l : gostring) (i : Z) : Z :=
  match l with
  | [] => 255
  | x :: l' => if byte_eqb x c then i else indexByte c l' (i + 1)
  end.

Definition decodeMap (enc : Encoding) (c : byte) : Z :=
  indexByte c enc.(alphabet) 0.

Definition encodeStd : gostring :=
  B "ABCDEFGHIJKLMNOPQRSTUVWXYZabcdefghijklmnopqrstuvwxyz0123456789+/".
Definition encodeURL : gostring :=
  B "ABCDEFGHIJKLMNOPQRSTUVWXYZabcdefghijklmnopqrstuvwxyz0123456789-_".

Definition StdPadding : byte := "="%byte.

Definition StdEncoding : Encoding := mkEncoding encodeStd (Some StdPadding) false.
Definition URLEncoding : Encoding := mkEncoding encodeURL (Some StdPadding) false.
Definition RawStdEncoding : Encoding := mkEncoding encodeStd None false.
Definition RawURLEncoding : Encoding := mkEncoding encodeURL None false.

Definition isNewline (c : byte) : bool := is_byte 10 c || is_byte 13 c.

Definition isPadOf (enc : Encoding) (c : byte) : bool :=
  match enc.(padChar) with
  | Some p => byte_eqb c p
  | None => false
  end.

Definition hasPadding (enc : Encoding) : bool :=
  match enc.(padChar) with Some _ => true | None => false end.

Fixpoint skipNewlines (src : gostring) : gostring :=
  match src with
  | c :: rest => if isNewline c then skipNewlines rest else src
  | [] => []
  end.

(** The conversion at the end of [decodeQuantum]: four 6-bit values (the
    missing ones are 0) into [dlen - 1] bytes. *)
Definition quantumBytes (enc : Encoding) (d0 d1 d2 d3 : Z) (dlen : nat)
  : option gostring :=
  let val := Z.lor (Z.lor (Z.lor (Z.shiftl d0 18) (Z.shiftl d1 12))
                          (Z.shiftl d2 6)) d3 in
  let b2 := byte_of_Z (Z.shiftr val 0) in
  let b1 := byte_of_Z (Z.shiftr val 8) in
  let b0 := byte_of_Z (Z.shiftr val 16) in
  match dlen with
  | 4%nat => Some [b0; b1; b2]
  | 3%nat =>
      if enc.(strict) && negb (code b2 =? 0) then None else Some [b0; b1]
  | 2%nat =>
      if enc.(strict) && (negb (code b1 =? 0) || negb (code b2 =? 0))
      then None else Some [b0]
  | _ => Some []
  end.

(** The result of one [decodeQuantum]: the input left, the bytes written
    and the error. *)
Record Quantum := mkQuantum {
  q_rest : gostring;
  q_out : gostring;
  q_err : option CorruptInputError
}.

Definition nth_d (dbuf : list Z) (i : nat) : Z := nth i dbuf 0.

Definition finishQuantum (enc : Encoding) (dbuf : list Z) (dlen : nat)
  (rest : gostring) (err : option CorruptInputError) : Quantum :=
  match quantumBytes enc (nth_d dbuf 0) (nth_d dbuf 1) (nth_d dbuf 2)
          (nth_d dbuf 3) dlen with
  | Some out => mkQuantum rest out err
  | None => mkQuantum rest [] (Some CorruptInput)
  end.

(** What [decodeQuantum] does once it has read the padding character at
    slot [j]; [rest] is the input behind that character. *)
Definition afterPadding (enc : Encoding) (dbuf : list Z) (j : nat)
  (rest : gostring) : Quantum :=
  match j with
  | 0%nat | 1%nat => mkQuantum rest [] (Some CorruptInput)
  | _ =>
      let second :=
        match j with
        | 2%nat =>
            match skipNewlines rest with
            | [] => inr (mkQuantum [] [] (Some CorruptInput))
            | c :: rest' =>
                if isPadOf enc c then inl rest'
                else inr (mkQuantum (c :: rest') [] (Some CorruptInput))
            end
        | _ => inl rest
        end in
      match second with
      | inr q => q
      | inl rest =>
          let rest := skipNewlines rest in
          let err := match rest with
                     | [] => None
                     | _ :: _ => Some CorruptInput
                     end in
          finishQuantum enc dbuf j rest err
      end
  end.

(** [decodeQuantum]: the loop over the four slots, [j] being the slot to
    fill next and [dbuf] the values read so far. *)
Fixpoint decodeQuantumFrom (enc : Encoding) (j : nat) (dbuf : list Z)
  (src : gostring) : Quantum :=
  match src with
  | [] =>
      match j with
      | 0%nat => mkQuantum [] [] None
      | 1%nat => mkQuantum [] [] (Some CorruptInput)
      | _ =>
          if hasPadding enc then mkQuantum [] [] (Some CorruptInput)
          else finishQuantum enc dbuf j [] None
      end
  | c :: rest =>
      let out := decodeMap enc c in
      if negb (out =? 255) then
        match j with
        | 3%nat => finishQuantum enc (dbuf ++ [out]) 4 rest None
        | _ => decodeQuantumFrom enc (S j) (dbuf ++ [out]) rest
        end
      else if isNewline c then decodeQuantumFrom enc j dbuf rest
      else if negb (isPadOf enc c) then
        mkQuantum rest [] (Some CorruptInput)
      else afterPadding enc dbuf j rest
  end.

Definition decodeQuantum (enc : Encoding) (src : gostring) : Quantum :=
  decodeQuantumFrom enc 0 [] src.

(** [Decode]: quantum after quantum until the input is used up or an error
    appears.  The fast paths of the library, which decode eight or four
    alphabet bytes at once and fall back to [decodeQuantum] otherwise,
    compute the same result and are not modelled apart. *)
Fixpoint DecodeFrom (enc : Encoding) (fuel : nat) (src : gostring)
  : gostring * option CorruptInputError :=
  match fuel with
  | O => ([], None)
  | S f =>
      match src with
      | [] => ([], None)
      | _ :: _ =>
          let q := decodeQuantum enc src in
          match q.(q_err) with
          | Some e => (q.(q_out), Some e)
          | None =>
              let (out, err) := DecodeFrom enc f q.(q_rest) in
              (q.(q_out) ++ out, err)
          end
      end
  end.

(** [enc.DecodeString(s)] *)
Definition DecodeString (enc : Encoding) (s : gostring)
  : gostring * option CorruptInputError :=
  DecodeFrom enc (List.length s) s.

(** ** Errors

    An [error] is known to the program through its message only. *)

Definition error := gostring.

(** [fmt.Errorf("invalid base64")] *)
Definition errInvalidBase64 : error := B "invalid base64".

(** ** [decodeBase64] *)

Definition decodeBase64 (config : Config) (s : gostring)
  : gostring * option error :=
  (* Try standard base64 first *)
  match DecodeString StdEncoding s with
  | (decoded, None) => (decoded, None)
  | (_, Some _) =>
      (* Try URL-safe if enabled and standard failed *)
      let urlResult :=
        if config.(urlSafe) then
          match DecodeString URLEncoding s with
          | (decoded, None) => Some decoded
          | (_, Some _) =>
              (* Try raw URL encoding (no padding) *)
              match DecodeString RawURLEncoding s with
              | (decoded, None) => Some decoded
              | (_, Some _) => None
              end
          end
        else None in
      match urlResult with
      | Some decoded => (decoded, None)
      | None =>
          (* Try raw standard encoding (no padding) *)
          match DecodeString RawStdEncoding s with
          | (decoded, None) => (decoded, None)
          | (_, Some _) => ([], Some errInvalidBase64)
          end
      end
  end.

(** ** [unicode/utf8]: the runes of a string

    [for _, r := range s] decodes one UTF-8 sequence after the other; a
    byte that starts no well-formed sequence yields [RuneError] and is
    one byte wide. *)

Definition RuneError : Z := 65533.

Definition isCont (b : byte) : bool := in_range 128 191 b.

(** The [first] and [acceptRanges] tables: for a leading byte, the width
    of its sequence and the range allowed for the second byte. *)
Definition firstInfo (b0 : byte) : option (nat * Z * Z) :=
  let c := code b0 in
  if c <? 194 then None
  else if c <=? 223 then Some (2%nat, 128, 191)
  else if c =? 224 then Some (3%nat, 160, 191)
  else if c <=? 236 then Some (3%nat, 128, 191)
  else if c =? 237 then Some (3%nat, 128, 159)
  else if c <=? 239 then Some (3%nat, 128, 191)
  else if c =? 240 then Some (4%nat, 144, 191)
  else if c <=? 243 then Some (4%nat, 128, 191)
  else if c =? 244 then Some (4%nat, 128, 143)
  else None.

Definition low6 (b : byte) : Z := Z.land (code b) 63.

(** [utf8.DecodeRuneInString]: the rune at the head of a non-empty string
    and its width in bytes. *)
Definition DecodeRune (s : gostring) : Z * nat :=
  match s with
  | [] => (RuneError, 0%nat)
  | b0 :: t =>
      if code b0 <? 128 then (code b0, 1%nat)
      else
        match firstInfo b0 with
        | None => (RuneError, 1%nat)
        | Some (sz, lo, hi) =>
            if (List.length s <? sz)%nat then (RuneError, 1%nat)
            else
              match t with
              | [] => (RuneError, 1%nat)
              | b1 :: t1 =>
                  if negb (in_range lo hi b1) then (RuneError, 1%nat)
                  else if (sz <=? 2)%nat then
                    (Z.lor (Z.shiftl (Z.land (code b0) 31) 6) (low6 b1),
                     2%nat)
                  else
                    match t1 with
                    | [] => (RuneError, 1%nat)
                    | b2 :: t2 =>
                        if negb (isCont b2) then (RuneError, 1%nat)
                        else if (sz <=? 3)%nat then
                          (Z.lor (Z.lor (Z.shiftl (Z.land (code b0) 15) 12)
                                        (Z.shiftl (low6 b1) 6)) (low6 b2),
                           3%nat)
                        else
                          match t2 with
                          | [] => (RuneError, 1%nat)
                          | b3 :: _ =>
                              if negb (isCont b3) then (RuneError, 1%nat)
                              else
                                (Z.lor (Z.lor (Z.lor
                                   (Z.shiftl (Z.land (code b0) 7) 18)
                                   (Z.shiftl (low6 b1) 12))
                                   (Z.shiftl (low6 b2) 6)) (low6 b3),
                                 4%nat)
                          end
                    end
              end
        end
  end.

Fixpoint runesFrom (fuel : nat) (s : gostring) : list Z :=
  match fuel with
  | O => []
  | S f =>
      match s with
      | [] => []
      | _ :: _ =>
          let (r, w) := DecodeRune s in
          r :: runesFrom f (skipn w s)
      end
  end.

(** The runes a [range] loop over [s] visits, in order. *)
Definition runes (s : gostring) : list Z := runesFrom (List.length s) s.

(** ** [unicode]

    Up to U+00FF, [IsPrint] and [IsSpace] read the Latin-1 property table,
    written out here.  Above, [IsSpace] reads the [White_Space] table,
    written out too, and [IsPrint] reads the range tables of the
    categories L, M, N, P and S, which are a parameter of the
    development. *)

Definition MaxLatin1 : Z := 255.

Definition latin1Print (r : Z) : bool :=
  ((32 <=? r) && (r <=? 126))
  || ((161 <=? r) && (r <=? 172))
  || ((174 <=? r) && (r <=? 255)).

Definition latin1Space (r : Z) : bool :=
  (r =? 9) || (r =? 10) || (r =? 11) || (r =? 12) || (r =? 13)
  || (r =? 32) || (r =? 133) || (r =? 160).

Definition whiteSpaceAboveLatin1 (r : Z) : bool :=
  (r =? 5760) || ((8192 <=? r) && (r <=? 8202)) || (r =? 8232)
  || (r =? 8233) || (r =? 8239) || (r =? 8287) || (r =? 12288).

Definition IsSpace (r : Z) : bool :=
  if (0 <=? r) && (r <=? MaxLatin1) then latin1Space r
  else whiteSpaceAboveLatin1 r.

Section Pipeline.

(** Membership in [unicode.PrintRanges] for the code points above
    U+00FF. *)
Variable PrintRanges : Z -> bool.

Definition IsPrint (r : Z) : bool :=
  if (0 <=? r) && (r <=? MaxLatin1) then latin1Print r
  else PrintRanges r.

(** ** [isValidOutput]

    The loop either returns [false] at a rune, or ends with the number of
    runes counted as printable. *)

Definition countsAsPrintable (r : Z) : bool :=
  IsPrint r || (r =? 10) || (r =? 13) || (r =? 9).

Fixpoint scanRunes (rs : list Z) (printableCount : Z) : option Z :=
  match rs with
  | [] => Some printableCount
  | r :: rs' =>
      if countsAsPrintable r then scanRunes rs' (printableCount + 1)
      else if negb (IsSpace r) then None
      else scanRunes rs' printableCount
  end.

(** [float64(printableCount)/float64(len(s)) >= 0.75]: both integers are
    below 2^53 and 0.75 is a binary fraction, so the rounded quotient is
    at least 0.75 exactly when [3 * len(s) <= 4 * printableCount]. *)
Definition ratioAtLeast75 (printableCount length : Z) : bool :=
  3 * length <=? 4 * printableCount.

Definition isValidOutput (s : gostring) : bool :=
  match s with
  | [] => false
  | _ :: _ =>
      match scanRunes (runes s) 0 with
      | None => false
      | Some printableCount => ratioAtLeast75 printableCount (len s)
      end
  end.

(** ** [bufio.Scanner] with [ScanLines] and a buffer of [chunkSize] bytes

    The reader is the bytes it delivers and the error, if any, it reports
    after them.  A token is a line without its end-of-line marker (a
    newline, with one carriage return before it dropped); a last line
    without newline is a token when it is not empty.  A line that does
    not fit the buffer with its newline ends the scan with
    [ErrTooLong]. *)

Record Reader := mkReader {
  content : gostring;
  fault : option error
}.

Definition ErrTooLong : error := B "bufio.Scanner: token too long".

Definition dropCR (data : gostring) : gostring :=
  match rev data with
  | c :: r => if is_byte 13 c then rev r else data
  | [] => data
  end.

(** [cur] holds the bytes of the line being read, last byte first, and
    [n] is their number. *)
Fixpoint scanFrom (fault : option error) (cur : gostring) (n : Z)
  (data : gostring) : list gostring * option error :=
  match data with
  | [] =>
      match cur with
      | [] => ([], fault)
      | _ :: _ => ([dropCR (rev cur)], fault)
      end
  | c :: rest =>
      if is_byte 10 c then
        let (tokens, err) := scanFrom fault [] 0 rest in
        (dropCR (rev cur) :: tokens, err)
      else if chunkSize <=? n + 1 then ([], Some ErrTooLong)
      else scanFrom fault (c :: cur) (n + 1) rest
  end.

(** The tokens [scanner.Scan()] delivers, and [scanner.Err()] after the
    last of them. *)
Definition scanLines (r : Reader) : list gostring * option error :=
  scanFrom r.(fault) [] 0 r.(content).

(** ** [fmt] *)

(** The verb [%d]. *)
Definition itoa (n : Z) : gostring :=
  list_byte_of_string (NilZero.string_of_int (Z.to_int n)).

Definition newline : gostring := [x0a].

(** ** [truncate] *)

Definition truncate (s : gostring) (maxLen : Z) : gostring :=
  if len s <=? maxLen then s
  else firstn (Z.to_nat maxLen) s ++ B "...".

(** ** [findAndDecode] *)

(** The local variables of [findAndDecode] and the two streams it writes
    to.  [attempted] is a ghost variable: the arguments of the calls of
    [decodeBase64], in order. *)
Record State := mkState {
  lineNum : Z;
  totalFound : Z;
  totalDecoded : Z;
  patterns : list gostring;
  stdout : gostring;
  stderr : gostring;
  attempted : list gostring
}.

Definition initState : State := mkState 0 0 0 [] [] [] [].

Definition setLineNum (st : State) (n : Z) : State :=
  mkState n st.(totalFound) st.(totalDecoded) st.(patterns)
          st.(stdout) st.(stderr) st.(attempted).

Definition setTotalFound (st : State) (n : Z) : State :=
  mkState st.(lineNum) n st.(totalDecoded) st.(patterns)
          st.(stdout) st.(stderr) st.(attempted).

Definition setTotalDecoded (st : State) (n : Z) : State :=
  mkState st.(lineNum) st.(totalFound) n st.(patterns)
          st.(stdout) st.(stderr) st.(attempted).

Definition appendPattern (st : State) (m : gostring) : State :=
  mkState st.(lineNum) st.(totalFound) st.(totalDecoded)
          (st.(patterns) ++ [m]) st.(stdout) st.(stderr) st.(attempted).

Definition printOut (st : State) (text : gostring) : State :=
  mkState st.(lineNum) st.(totalFound) st.(totalDecoded) st.(patterns)
          (st.(stdout) ++ text) st.(stderr) st.(attempted).

Definition printErr (st : State) (text : gostring) : State :=
  mkState st.(lineNum) st.(totalFound) st.(totalDecoded) st.(patterns)
          st.(stdout) (st.(stderr) ++ text) st.(attempted).

Definition noteAttempt (st : State) (m : gostring) : State :=
  mkState st.(lineNum) st.(totalFound) st.(totalDecoded) st.(patterns)
          st.(stdout) st.(stderr) (st.(attempted) ++ [m]).

(** The messages. *)
Definition msgLimit : gostring :=
  B "Warning: reached maximum match limit (" ++ itoa maxMatches
  ++ B ")" ++ newline.

Definition msgDecodeError (lineNum : Z) (m : gostring) (err : error)
  : gostring :=
  B "Line " ++ itoa lineNum ++ B ": decode error for '"
  ++ truncate m 20 ++ B "': " ++ err ++ newline.

Definition msgOffset (lineNum : Z) (decoded : gostring) : gostring :=
  B "Line " ++ itoa lineNum ++ B ": " ++ decoded ++ newline.

Definition msgStatistics (st : State) : gostring :=
  newline ++ B "Statistics:" ++ newline
  ++ B "  Total patterns found: " ++ itoa st.(totalFound) ++ newline
  ++ B "  Successfully decoded: " ++ itoa st.(totalDecoded) ++ newline.

(** [fmt.Errorf("read error: %w", err)] *)
Definition errRead (err : error) : error := B "read error: " ++ err.

(** How a loop is left: it ran to its end, or the function returned from
    inside it with the given result. *)
Inductive Flow :=
| Next (st : State)
| Return (st : State) (result : option error).

(** The body of [for _, match := range matches] after the test of the
    match limit. *)
Definition processMatch (config : Config) (m : gostring) (st : State)
  : State :=
  let st := setTotalFound st (st.(totalFound) + 1) in
  let st := noteAttempt st m in
  let (decoded, err) := decodeBase64 config m in
  match err with
  | Some e =>
      if config.(verbose) then
        printErr st (msgDecodeError st.(lineNum) m e)
      else st
  | None =>
      if negb (isValidOutput decoded) then st
      else
        let st := setTotalDecoded st (st.(totalDecoded) + 1) in
        let st :=
          if config.(showOffset) then
            printOut st (msgOffset st.(lineNum) decoded)
          else printOut st (decoded ++ newline) in
        if config.(verbose) then appendPattern st m else st
  end.

Fixpoint rangeMatches (config : Config) (matches : list gostring)
  (st : State) : Flow :=
  match matches with
  | [] => Next st
  | m :: matches' =>
      if maxMatches <=? st.(totalFound) then
        Return (if config.(verbose) then printErr st msgLimit else st) None
      else rangeMatches config matches' (processMatch config m st)
  end.

(** [for scanner.Scan()] over the tokens the scanner delivers. *)
Fixpoint scanLoop (config : Config) (lines : list gostring) (st : State)
  : Flow :=
  match lines with
  | [] => Next st
  | line :: lines' =>
      let st := setLineNum st (st.(lineNum) + 1) in
      (* Find potential base64 strings *)
      let matches := findBase64Patterns config line in
      match rangeMatches config matches st with
      | Return st result => Return st result
      | Next st => scanLoop config lines' st
      end
  end.

(** What follows the scanning loop. *)
Definition afterLoop (config : Config) (scanErr : option error)
  (st : State) : State * option error :=
  match scanErr with
  | Some err => (st, Some (errRead err))
  | None =>
      ((if config.(verbose) then printErr st (msgStatistics st) else st),
       None)
  end.

Definition findAndDecodeLines (config : Config) (lines : list gostring)
  (scanErr : option error) : State * option error :=
  match scanLoop config lines initState with
  | Return st result => (st, result)
  | Next st => afterLoop config scanErr st
  end.

Definition findAndDecode (config : Config) (r : Reader)
  : State * option error :=
  let (lines, scanErr) := scanLines r in
  findAndDecodeLines config lines scanErr.

End Pipeline.

(** A file with the given bytes that is read without fault. *)
Definition fileOf (data : gostring) : Reader := mkReader data None.

(** ** Notions of the specification *)

(** The four decoding variants of the specification and the order in
    which it says they are attempted. *)
Inductive Variant := StdPadded | UrlPadded | UrlRaw | StdRaw.

Definition encodingOf (v : Variant) : Encoding :=
  match v with
  | StdPadded => StdEncoding
  | UrlPadded => URLEncoding
  | UrlRaw => RawURLEncoding
  | StdRaw => RawStdEncoding
  end.

Definition attemptOrder (config : Config) : list Variant :=
  [StdPadded]
  ++ (if config.(urlSafe) then [UrlPadded; UrlRaw] else [])
  ++ [StdRaw].

Definition attempt (v : Variant) (s : gostring) : option gostring :=
  match DecodeString (encodingOf v) s with
  | (decoded, None) => Some decoded
  | (_, Some _) => None
  end.

Fixpoint firstSuccess (vs : list Variant) (s : gostring) : option gostring :=
  match vs with
  | [] => None
  | v :: vs' =>
      match attempt v s with
      | Some decoded => Some decoded
      | None => firstSuccess vs' s
      end
  end.

(** [s] matches [class{4,}={0,2}] in full. *)
Definition matchesInFull (cls : byte -> bool) (s : gostring) : Prop :=
  exists run pad,
    s = run ++ pad /\ (4 <= List.length run)%nat
    /\ forallb cls run = true
    /\ forallb isPad pad = true /\ (List.length pad <= 2)%nat.

(** The length of [s] after its trailing ['='] are stripped. *)
Definition strippedLength (s : gostring) : Z := len (TrimRightPad s).

(** An occurrence of a full match [s] between [pre] and [post] is
    delimited when no byte next to it could belong to a match with it:
    [pre] does not end with a class byte, and [post] does not start with
    a byte that the pattern would still take after [s]. *)
Definition lastOutside (cls : byte -> bool) (pre : gostring) : Prop :=
  match rev pre with
  | [] => True
  | c :: _ => cls c = false
  end.

Definition firstOutside (p : byte -> bool) (post : gostring) : Prop :=
  match post with
  | [] => True
  | c :: _ => p c = false
  end.

Definition delimited (cls : byte -> bool) (pre s post : gostring) : Prop :=
  lastOutside cls pre
  /\ (forallb cls s = true -> firstOutside cls post)
  /\ ((List.length s - List.length (TrimRightPad s) < 2)%nat ->
      firstOutside isPad post).

(** Standard base64 with padding (RFC 4648), the encoding the round trip
    starts from: three bytes make four alphabet characters, and a last
    group of one or two bytes is filled up with ['=']. *)
Definition encodeChar (v : Z) : byte := nth (Z.to_nat v) encodeStd x00.

(** The 6-bit group of [val] that starts at bit [k]. *)
Definition six (val k : Z) : Z := Z.land (Z.shiftr val k) 63.

Definition sextet (val : Z) (shift : Z) : byte :=
  encodeChar (six val shift).

Fixpoint EncodeStd (src : gostring) : gostring :=
  match src with
  | [] => []
  | [a] =>
      let val := Z.shiftl (code a) 16 in
      [sextet val 18; sextet val 12; StdPadding; StdPadding]
  | [a; b] =>
      let val := Z.lor (Z.shiftl (code a) 16) (Z.shiftl (code b) 8) in
      [sextet val 18; sextet val 12; sextet val 6; StdPadding]
  | a :: b :: c :: rest =>
      let val := Z.lor (Z.lor (Z.shiftl (code a) 16) (Z.shiftl (code b) 8))
                       (code c) in
      [sextet val 18; sextet val 12; sextet val 6; sextet val 0]
      ++ EncodeStd rest
  end.

(** Printable ASCII: the characters from space to tilde. *)
Definition printableASCII (s : gostring) : Prop :=
  Forall (fun b => 32 <= code b <= 126) s.

(** The number of bytes a text must not exceed to be one token of the
    scanner. *)
Definition fitsBuffer (line : gostring) : Prop := len line < chunkSize.

Definition noLineEnd (s : gostring) : Prop :=
  Forall (fun b => code b <> 10 /\ code b <> 13) s.

(** A rune the loop of [isValidOutput] steps over: it counts as printable
    or is a space. *)
Definition tolerated (PrintRanges : Z -> bool) (r : Z) : bool :=
  countsAsPrintable PrintRanges r || IsSpace r.

(** The number of runes that count as printable. *)
Definition printableRunes (PrintRanges : Z -> bool) (rs : list Z) : Z :=
  Z.of_nat (List.length (filter (countsAsPrintable PrintRanges) rs)).

(** The UTF-8 text of four times U+00E9, a lower-case letter of Latin-1. *)
Definition fourAccents : gostring :=
  [xc3; xa9; xc3; xa9; xc3; xa9; xc3; xa9].

(** The configuration of a run with the flag [-v] alone. *)
Definition verboseConfig : Config :=
  mkConfig false minB64Length maxFileSize true false.

(** A file of [n] lines, each of them [line]. *)
Definition repeatedLines (line : gostring) (n : Z) : gostring :=
  List.concat (repeat (line ++ newline) (Z.to_nat n)).

(** A class is a set of bytes that does not hold ['=']. *)
Definition padFree (cls : byte -> bool) : Prop :=
  forall c, cls c = true -> isPad c = false.

(** The test of [findBase64Patterns] on a match of either pattern. *)
Definition admissible (config : Config) (m : gostring) : bool :=
  (config.(minLength) <=? len m) && isValidBase64Length m.

(** The set [seen] holds the matches collected so far. *)
Definition seenAgrees (st : list gostring * seenSet) : Prop :=
  forall m, seenLookup (snd st) m = true <-> In m (fst st).

(** Every candidate of the given lines, in the order of the run. *)
Definition allCandidates (config : Config) (lines : list gostring)
  : list gostring :=
  List.concat (map (findBase64Patterns config) lines).

(** The number of candidates the run may still process. *)
Definition room (st : State) : nat := Z.to_nat (maxMatches - st.(totalFound)).

(** The loop body applied to one match after the other, without the test
    of the match limit. *)
Definition processAll (PrintRanges : Z -> bool) (config : Config)
  (ms : list gostring) (st : State) : State :=
  fold_left (fun st m => processMatch PrintRanges config m st) ms st.

(** What the loop body writes to standard output for a match. *)
Definition outputOf (PrintRanges : Z -> bool) (config : Config)
  (lineNum : Z) (m : gostring) : gostring :=
  match decodeBase64 config m with
  | (decoded, None) =>
      if isValidOutput PrintRanges decoded then
        if config.(showOffset) then msgOffset lineNum decoded
        else decoded ++ newline
      else []
  | (_, Some _) => []
  end.

(** The exit at the match limit. *)
Definition atLimit (config : Config) (st : State) : State :=
  if config.(verbose) then printErr st msgLimit else st.

Definition flowState (f : Flow) : State :=
  match f with Next st => st | Return st _ => st end.

Definition returned (f : Flow) : bool :=
  match f with Next _ => false | Return _ _ => true end.

(** A byte that the decoder neither skips nor takes for padding. *)
Definition plainFor (enc : Encoding) (c : byte) : Prop :=
  isNewline c = false /\ isPadOf enc c = false.

(** The candidates of the lines that follow line [n], each with the
    number of its line. *)
Fixpoint numberedFrom (config : Config) (n : Z) (lines : list gostring)
  : list (Z * gostring) :=
  match lines with
  | [] => []
  | line :: lines' =>
      map (pair (n + 1)) (findBase64Patterns config line)
      ++ numberedFrom config (n + 1) lines'
  end.

(** The candidates the loop body counts as decoded. *)
Definition accepted (PrintRanges : Z -> bool) (config : Config)
  (m : gostring) : bool :=
  match decodeBase64 config m with
  | (decoded, None) => isValidOutput PrintRanges decoded
  | (_, Some _) => false
  end.

(** Two configurations that differ at most in [maxSize] and [verbose]. *)
Definition sameSearch (c1 c2 : Config) : Prop :=
  c1.(urlSafe) = c2.(urlSafe) /\ c1.(minLength) = c2.(minLength)
  /\ c1.(showOffset) = c2.(showOffset).

(** On ASCII bytes: the bytes [isValidOutput] counts as printable (space
    to tilde, tab, newline, carriage return), and the two it steps over
    without counting (vertical tab, form feed). *)
Definition asciiCounted (b : byte) : bool :=
  in_range 32 126 b || is_byte 9 b || is_byte 10 b || is_byte 13 b.

Definition asciiNeutral (b : byte) : bool := is_byte 11 b || is_byte 12 b.

(** The control characters of ASCII that are no white space. *)
Definition asciiControl (b : byte) : bool :=
  in_range 0 8 b || in_range 14 31 b || is_byte 127 b.

(** The lines of a text, each followed by the line end [eol]. *)
Definition joinLines (eol : gostring) (lines : list gostring) : gostring :=
  List.concat (map (fun l => l ++ eol) lines).

(** A line without line-end characters that fits the buffer of the
    scanner even with a carriage return after it. *)
Definition plainLine (l : gostring) : Prop :=
  noLineEnd l /\ len l + 1 < chunkSize.

(** A file of 10000 lines [AAAA], and the same file followed by three
    lines without candidate and one more line [AAAA]. *)
Definition limitProbeHead : gostring := repeatedLines (B "AAAA") 10000.

Definition limitProbe : gostring :=
  limitProbeHead ++ repeatedLines (B "--") 3 ++ repeatedLines (B "AAAA") 1.

(** The lines of a text: the pieces that end at a newline, and what
    follows the last newline when that is not empty.  [cur] holds the
    bytes of the line being read, last byte first. *)
Fixpoint splitLinesFrom (cur : gostring) (text : gostring) : list gostring :=
  match text with
  | [] => match cur with [] => [] | _ :: _ => [rev cur] end
  | c :: text' =>
      if is_byte 10 c then rev cur :: splitLinesFrom [] text'
      else splitLinesFrom (c :: cur) text'
  end.

Definition outputLines (text : gostring) : list gostring :=
  splitLinesFrom [] text.

(** A text that is empty or ends with a newline. *)
Definition endsLine (text : gostring) : Prop :=
  text = [] \/ exists t, text = t ++ newline.

(** * Properties *)

(** ** Examples *)

Example find_demo :
  findBase64Patterns defaultConfig (B "user=aGVsbG8gd29ybGQ=&id=5")
  = [B "user="; B "aGVsbG8gd29ybGQ="].
Proof. vm_compute. reflexivity. Qed.

Example decode_hello :
  DecodeString StdEncoding (B "aGVsbG8gd29ybGQ=") = (B "hello world", None).
Proof. vm_compute. reflexivity. Qed.

Example decode_user_pad :
  snd (DecodeString StdEncoding (B "user=")) = Some CorruptInput
  /\ snd (DecodeString RawStdEncoding (B "user=")) = Some CorruptInput.
Proof. vm_compute. split; reflexivity. Qed.

Example decode_raw :
  DecodeString RawURLEncoding (B "aGVsbG8td29ybGQ") = (B "hello-world", None).
Proof. vm_compute. reflexivity. Qed.

Example run_demo : forall P,
  stdout (fst (findAndDecode P defaultConfig
                 (fileOf (B "user=aGVsbG8gd29ybGQ=&id=5"))))
  = B "hello world" ++ newline.
Proof. intros. vm_compute. reflexivity. Qed.

Example encode_demo : EncodeStd (B "hello world") = B "aGVsbG8gd29ybGQ=".
Proof. vm_compute. reflexivity. Qed.

(** ** The decoder: order of the variants *)

Lemma attempt_spec v s :
  attempt v s = None <-> snd (DecodeString (encodingOf v) s) <> None.
Proof.
  unfold attempt. destruct (DecodeString (encodingOf v) s) as [d [e|]];
    simpl; split; congruence.
Qed.

Lemma decodeBase64_firstSuccess config s :
  decodeBase64 config s =
  match firstSuccess (attemptOrder config) s with
  | Some decoded => (decoded, None)
  | None => ([], Some errInvalidBase64)
  end.
Proof.
  unfold decodeBase64, attemptOrder, attempt.
  destruct (urlSafe config); simpl; unfold attempt; simpl;
    repeat match goal with
    | |- context [DecodeString ?e s] =>
        destruct (DecodeString e s) as [? [?|]]; simpl
    end; reflexivity.
Qed.

(** C3: the decoder tries the standard padded variant, then, if
    [urlSafe], the URL-safe padded and the URL-safe raw variants, then the
    standard raw variant; it returns the result of the first one that
    succeeds, and it returns the error "invalid base64" if and only if
    every attempted variant fails. *)
Theorem decodeBase64_variant_order :
  forall (config : Config) (s : gostring),
    attemptOrder config =
      (if config.(urlSafe) then [StdPadded; UrlPadded; UrlRaw; StdRaw]
       else [StdPadded; StdRaw])
    /\ (forall decoded,
          firstSuccess (attemptOrder config) s = Some decoded ->
          decodeBase64 config s = (decoded, None))
    /\ (snd (decodeBase64 config s) = Some errInvalidBase64 <->
        Forall (fun v => attempt v s = None) (attemptOrder config))
    /\ (forall e, snd (decodeBase64 config s) = Some e ->
          e = errInvalidBase64).
Proof.
  intros config s. split; [|split; [|split]].
  - unfold attemptOrder. destruct (urlSafe config); reflexivity.
  - intros decoded H. rewrite decodeBase64_firstSuccess, H. reflexivity.
  - rewrite decodeBase64_firstSuccess.
    induction (attemptOrder config) as [|v vs IH]; simpl.
    + split; [constructor | reflexivity].
    + destruct (attempt v s) as [d|] eqn:E; simpl.
      * split; [discriminate | intros H; inversion H; congruence].
      * split.
        -- intros H. constructor; [exact E | apply IH; exact H].
        -- intros H. inversion H; subst. apply IH. assumption.
  - intros e. rewrite decodeBase64_firstSuccess.
    destruct (firstSuccess (attemptOrder config) s); simpl; congruence.
Qed.

(** ** The output filter *)

Section OutputFilter.

Variable P : Z -> bool.

Lemma scanRunes_spec rs : forall n,
  scanRunes P rs n =
  if forallb (tolerated P) rs then Some (n + printableRunes P rs) else None.
Proof.
  unfold printableRunes, tolerated.
  induction rs as [|r rs IH]; intros n; simpl.
  - f_equal. lia.
  - destruct (countsAsPrintable P r) eqn:E; simpl.
    + rewrite IH. destruct (forallb _ rs); [f_equal; lia | reflexivity].
    + destruct (IsSpace r); simpl; [apply IH | reflexivity].
Qed.

(** What [isValidOutput] computes: the string is not empty, every rune
    is tolerated, and four times the number of printable runes is at
    least three times the number of BYTES of the string. *)
Lemma isValidOutput_spec s :
  isValidOutput P s = true <->
  s <> [] /\ forallb (tolerated P) (runes s) = true
  /\ 3 * len s <= 4 * printableRunes P (runes s).
Proof.
  unfold isValidOutput, ratioAtLeast75. destruct s as [|b s].
  - split; [discriminate | intros [H _]; congruence].
  - rewrite scanRunes_spec. destruct (forallb (tolerated P) _).
    + rewrite Z.leb_le, Z.add_0_l. intuition congruence.
    + split; [discriminate | intros (_ & H & _); discriminate].
Qed.

Lemma runesFrom_ascii s :
  Forall (fun b => code b < 128) s ->
  runesFrom (List.length s) s = map code s.
Proof.
  induction 1 as [|b s Hb Hs IH]; simpl; [reflexivity|].
  destruct (Z.ltb_spec (code b) 128); [|lia].
  simpl. f_equal. exact IH.
Qed.

Lemma runes_ascii s :
  Forall (fun b => code b < 128) s -> runes s = map code s.
Proof. apply runesFrom_ascii. Qed.

Lemma printable_counts r : 32 <= r <= 126 -> countsAsPrintable P r = true.
Proof.
  intros H. unfold countsAsPrintable, IsPrint, MaxLatin1, latin1Print.
  destruct (Z.leb_spec 0 r); [|lia]. destruct (Z.leb_spec r 255); [|lia].
  destruct (Z.leb_spec 32 r); [|lia]. destruct (Z.leb_spec r 126); [|lia].
  reflexivity.
Qed.

Lemma printableASCII_runes s :
  printableASCII s ->
  forallb (tolerated P) (map code s) = true
  /\ printableRunes P (map code s) = len s.
Proof.
  unfold printableRunes, len.
  induction 1 as [|b s Hb Hs [IH1 IH2]]; [split; reflexivity|].
  cbn [map forallb filter]. unfold tolerated at 1.
  rewrite (printable_counts _ Hb). cbn [orb andb List.length].
  split; [exact IH1|]. rewrite !Nat2Z.inj_succ. lia.
Qed.

(** Printable ASCII text passes the filter. *)
Lemma isValidOutput_printableASCII s :
  s <> [] -> printableASCII s -> isValidOutput P s = true.
Proof.
  intros Hne Hp. apply isValidOutput_spec. split; [exact Hne|].
  rewrite runes_ascii
    by (eapply Forall_impl; [|exact Hp]; simpl; intros; lia).
  destruct (printableASCII_runes s Hp) as [H1 H2].
  split; [exact H1 | rewrite H2; unfold len; lia].
Qed.

End OutputFilter.

(** C1 (the code at the failing input): the eight bytes of [fourAccents]
    are four characters, each of them printable, so the share of printable
    characters is 4 of 4; [isValidOutput] divides the count by the eight
    bytes of the string and rejects.  The text is what the candidate
    [w6nDqcOpw6k=] decodes to, and the run on that line prints nothing. *)
Theorem isValidOutput_divides_by_bytes :
  forall PrintRanges : Z -> bool,
    runes fourAccents = [233; 233; 233; 233]
    /\ Forall (fun r => countsAsPrintable PrintRanges r = true)
              (runes fourAccents)
    /\ scanRunes PrintRanges (runes fourAccents) 0 = Some 4
    /\ len fourAccents = 8
    /\ isValidOutput PrintRanges fourAccents = false
    /\ decodeBase64 defaultConfig (B "w6nDqcOpw6k=") = (fourAccents, None)
    /\ stdout (fst (findAndDecode PrintRanges defaultConfig
                      (fileOf (B "w6nDqcOpw6k=")))) = [].
Proof.
  intros P. repeat split; try (vm_compute; reflexivity).
  vm_compute. repeat constructor.
Qed.

(** ** The end-to-end scenario *)

(** C2: on the single line [user=aGVsbG8gd29ybGQ=&id=5] and with the
    default configuration, standard output is exactly the line
    [hello world].  The text [user] gives no output: the pattern takes it
    with the ['='] behind it, and the candidate [user=] fails every
    variant; the bare text [user] decodes to the bytes BA C7 AB, none of
    them printable ASCII, which the output filter rejects. *)
Theorem scenario_hello_world :
  forall PrintRanges : Z -> bool,
    let run := findAndDecode PrintRanges defaultConfig
                 (fileOf (B "user=aGVsbG8gd29ybGQ=&id=5")) in
    stdout (fst run) = B "hello world" ++ newline
    /\ snd run = None
    /\ findBase64Patterns defaultConfig (B "user=aGVsbG8gd29ybGQ=&id=5")
       = [B "user="; B "aGVsbG8gd29ybGQ="]
    /\ decodeBase64 defaultConfig (B "user=") = ([], Some errInvalidBase64)
    /\ decodeBase64 defaultConfig (B "user") = ([xba; xc7; xab], None)
    /\ isValidOutput PrintRanges [xba; xc7; xab] = false.
Proof.
  intros P. repeat split; try (vm_compute; reflexivity).
  vm_compute. destruct (P 65533), (P 491); reflexivity.
Qed.

(** ** The statistics at the match limit *)

(** C5 (the code at the failing input): on a file of 10001 lines [AAAA]
    in verbose mode the run returns at the match limit; the diagnostic
    stream holds the warning and nothing else, so no statistics are
    printed.  On 10000 such lines the run reaches the end of the input
    and prints them. *)
Theorem no_statistics_at_match_limit :
  forall PrintRanges : Z -> bool,
    let capped := findAndDecode PrintRanges verboseConfig
                    (fileOf (repeatedLines (B "AAAA") 10001)) in
    let full := findAndDecode PrintRanges verboseConfig
                  (fileOf (repeatedLines (B "AAAA") 10000)) in
    stderr (fst capped) = msgLimit
    /\ totalFound (fst capped) = 10000
    /\ snd capped = None
    /\ stderr (fst full) = msgStatistics (fst full)
    /\ totalFound (fst full) = 10000.
Proof.
  intros P. vm_compute. repeat split; reflexivity.
Qed.

(** ** Bytes *)

Lemma byte_eqb_eq a b : byte_eqb a b = true <-> a = b.
Proof.
  unfold byte_eqb. split.
  - apply Byte.byte_dec_bl.
  - apply Byte.byte_dec_lb.
Qed.

Lemma str_eqb_eq s : forall t, str_eqb s t = true <-> s = t.
Proof.
  induction s as [|a s IH]; intros [|b t]; simpl;
    try (split; [discriminate | congruence]); [tauto|].
  rewrite andb_true_iff, byte_eqb_eq, IH. split.
  - intros [-> ->]. reflexivity.
  - intros H. inversion H. auto.
Qed.

Lemma code_range b : 0 <= code b < 256.
Proof. destruct b; vm_compute; split; congruence. Qed.

Lemma byte_of_Z_code b : byte_of_Z (code b) = b.
Proof. destruct b; reflexivity. Qed.

Lemma stdClass_not_pad c : stdClass c = true -> isPad c = false.
Proof. destruct c; vm_compute; congruence. Qed.

Lemma urlClass_not_pad c : urlClass c = true -> isPad c = false.
Proof. destruct c; vm_compute; congruence. Qed.

(** ** The pattern scanner *)

Section Scanner.

Variable p : byte -> bool.

Lemma span_spec l a r :
  span p l = (a, r) ->
  l = a ++ r /\ forallb p a = true /\ firstOutside p r.
Proof.
  revert a r. induction l as [|x l IH]; simpl; intros a r H.
  - inversion H; subst. repeat split.
  - destruct (p x) eqn:E.
    + destruct (span p l) as [a' r'] eqn:E'. inversion H; subst.
      destruct (IH _ _ eq_refl) as (-> & Ha & Hr).
      simpl. rewrite E, Ha. repeat split. exact Hr.
    + inversion H; subst. repeat split. exact E.
Qed.

Lemma span_eq a r :
  forallb p a = true -> firstOutside p r -> span p (a ++ r) = (a, r).
Proof.
  intros Ha Hr. induction a as [|x a IH]; simpl in *.
  - destruct r as [|y r]; simpl in *; [reflexivity|]. rewrite Hr. reflexivity.
  - apply andb_true_iff in Ha as [Hx Ha]. rewrite Hx, (IH Ha). reflexivity.
Qed.

Lemma takeUpTo_spec n l a r :
  takeUpTo n p l = (a, r) ->
  l = a ++ r /\ forallb p a = true /\ (List.length a <= n)%nat
  /\ ((List.length a < n)%nat -> firstOutside p r).
Proof.
  revert l a r. induction n as [|n IH]; intros l a r H.
  - destruct l; simpl in H; inversion H; subst; simpl; repeat split; lia.
  - destruct l as [|x l]; simpl in H.
    + inversion H; subst; simpl. repeat split; lia.
    + destruct (p x) eqn:E.
      * destruct (takeUpTo n p l) as [a' r'] eqn:E'. inversion H; subst.
        destruct (IH _ _ _ E') as (-> & Ha & Hn & Hr).
        simpl. rewrite E, Ha. repeat split; [lia|]. intros. apply Hr. lia.
      * inversion H; subst; simpl. repeat split; [lia|]. intros _. exact E.
Qed.

Lemma takeUpTo_eq n a r :
  forallb p a = true -> (List.length a <= n)%nat ->
  ((List.length a < n)%nat -> firstOutside p r) ->
  takeUpTo n p (a ++ r) = (a, r).
Proof.
  revert a. induction n as [|n IH]; intros a Ha Hn Hr.
  - destruct a; simpl in *; [|lia]. destruct r; reflexivity.
  - destruct a as [|x a]; simpl in *.
    + destruct r as [|y r]; [reflexivity|].
      simpl in Hr. rewrite Hr by lia. reflexivity.
    + apply andb_true_iff in Ha as [Hx Ha]. rewrite Hx.
      rewrite IH; auto; try lia. intros. apply Hr. lia.
Qed.

End Scanner.

Lemma firstOutside_app (p : byte -> bool) a r :
  (a = [] -> firstOutside p r) ->
  (forall x, In x a -> p x = false) -> firstOutside p (a ++ r).
Proof.
  destruct a as [|x a]; simpl; intros H1 H2; [auto|]. apply H2. auto.
Qed.

Lemma forallb_In {A} (p : A -> bool) l x :
  forallb p l = true -> In x l -> p x = true.
Proof. rewrite forallb_forall. auto. Qed.

Section Matches.

Variable cls : byte -> bool.
Hypothesis cls_padFree : padFree cls.

Lemma pad_outside c : isPad c = true -> cls c = false.
Proof.
  intros H. destruct (cls c) eqn:E; [|reflexivity].
  apply cls_padFree in E. congruence.
Qed.

Lemma matchAt_inv s m rest :
  matchAt cls s = Some (m, rest) -> s = m ++ rest /\ matchesInFull cls m.
Proof.
  unfold matchAt. destruct (span cls s) as [run r] eqn:E.
  destruct (Nat.leb_spec 4 (List.length run)); [|discriminate].
  destruct (takeUpTo 2 isPad r) as [pad r'] eqn:E'. intros Hm; inversion Hm; subst.
  apply span_spec in E as (-> & Hrun & _).
  apply takeUpTo_spec in E' as (-> & Hpad & Hn & _).
  split; [now rewrite app_assoc|]. exists run, pad. auto.
Qed.

Lemma matchAt_eq run pad post :
  (4 <= List.length run)%nat -> forallb cls run = true ->
  forallb isPad pad = true -> (List.length pad <= 2)%nat ->
  (pad = [] -> firstOutside cls post) ->
  ((List.length pad < 2)%nat -> firstOutside isPad post) ->
  matchAt cls (run ++ pad ++ post) = Some (run ++ pad, post).
Proof.
  intros Hn Hrun Hpad Hp H1 H2. unfold matchAt.
  rewrite span_eq; auto.
  - destruct (Nat.leb_spec 4 (List.length run)); [|lia].
    rewrite takeUpTo_eq; auto.
  - apply firstOutside_app; auto. intros x Hx. apply pad_outside.
    eapply forallb_In; eauto.
Qed.

Lemma matchAt_shorter s m rest :
  matchAt cls s = Some (m, rest) -> (List.length rest < List.length s)%nat.
Proof.
  intros H. apply matchAt_inv in H as (-> & run & pad & -> & Hn & _).
  rewrite !length_app. lia.
Qed.

Lemma findAllFrom_fuel : forall fuel1 fuel2 s,
  (List.length s <= fuel1)%nat -> (List.length s <= fuel2)%nat ->
  findAllFrom cls fuel1 s = findAllFrom cls fuel2 s.
Proof.
  induction fuel1 as [|f1 IH]; intros fuel2 s H1 H2.
  - destruct s; simpl in *; [|lia]. destruct fuel2; reflexivity.
  - destruct fuel2 as [|f2]; [destruct s; simpl in *; [reflexivity|lia]|].
    destruct s as [|c s]; [reflexivity|].
    cbn [findAllFrom]. destruct (matchAt cls (c :: s)) as [[m rest]|] eqn:E.
    + apply matchAt_shorter in E. simpl in *. f_equal. apply IH; lia.
    + simpl in *. apply IH; lia.
Qed.

Lemma FindAllString_nil : FindAllString cls [] = [].
Proof. reflexivity. Qed.

Lemma FindAllString_cons c s :
  FindAllString cls (c :: s) =
  match matchAt cls (c :: s) with
  | Some (m, rest) => m :: FindAllString cls rest
  | None => FindAllString cls s
  end.
Proof.
  unfold FindAllString. cbn [List.length findAllFrom].
  destruct (matchAt cls (c :: s)) as [[m rest]|] eqn:E.
  - apply matchAt_shorter in E. simpl in E. f_equal.
    apply findAllFrom_fuel; lia.
  - reflexivity.
Qed.

Lemma findAllFrom_full fuel : forall s,
  Forall (matchesInFull cls) (findAllFrom cls fuel s).
Proof.
  induction fuel as [|f IH]; intros s; simpl; [constructor|].
  destruct s as [|c s]; [constructor|].
  destruct (matchAt cls (c :: s)) as [[m rest]|] eqn:E; [|apply IH].
  constructor; [|apply IH]. apply matchAt_inv in E. tauto.
Qed.

Lemma FindAllString_full s :
  Forall (matchesInFull cls) (FindAllString cls s).
Proof. apply findAllFrom_full. Qed.

End Matches.

(** ** [strings.TrimRight] *)

Lemma TrimRightPad_pads pad :
  forallb isPad pad = true -> TrimRightPad pad = [].
Proof.
  induction pad as [|c pad IH]; simpl; [reflexivity|].
  intros H. apply andb_true_iff in H as [Hc Hp]. rewrite (IH Hp), Hc.
  reflexivity.
Qed.

Lemma TrimRightPad_app_pads run pad :
  forallb isPad pad = true -> TrimRightPad (run ++ pad) = TrimRightPad run.
Proof.
  intros H. induction run as [|c run IH]; simpl.
  - apply TrimRightPad_pads, H.
  - rewrite IH. reflexivity.
Qed.

Lemma TrimRightPad_nopad run :
  (forall c, In c run -> isPad c = false) -> TrimRightPad run = run.
Proof.
  induction run as [|c run IH]; simpl; intros H; [reflexivity|].
  rewrite IH by auto. destruct run; [|reflexivity].
  rewrite (H c) by auto. reflexivity.
Qed.

Lemma TrimRightPad_match cls run pad :
  padFree cls -> forallb cls run = true -> forallb isPad pad = true ->
  TrimRightPad (run ++ pad) = run.
Proof.
  intros Hc Hrun Hpad. rewrite TrimRightPad_app_pads by exact Hpad.
  apply TrimRightPad_nopad. intros c Hin. apply Hc.
  eapply forallb_In; eauto.
Qed.

(** ** A delimited occurrence is found *)

Lemma span_app_l (p : byte -> bool) pre t a r :
  span p pre = (a, r) -> r <> [] -> span p (pre ++ t) = (a, r ++ t).
Proof.
  revert a r. induction pre as [|x pre IH]; simpl; intros a r H Hr.
  - inversion H; subst. congruence.
  - destruct (p x).
    + destruct (span p pre) as [a' r'] eqn:E. inversion H; subst.
      rewrite (IH _ _ eq_refl Hr). reflexivity.
    + inversion H; subst. reflexivity.
Qed.

Lemma takeUpTo_app_l (p : byte -> bool) n : forall r t,
  firstOutside p t ->
  takeUpTo n p (r ++ t) =
  (fst (takeUpTo n p r), snd (takeUpTo n p r) ++ t).
Proof.
  induction n as [|n IH]; intros r t Ht.
  - destruct r, t; reflexivity.
  - destruct r as [|x r]; simpl.
    + destruct t as [|y t]; [reflexivity|]. simpl in Ht. rewrite Ht.
      reflexivity.
    + destruct (p x); [|reflexivity].
      rewrite (IH r t Ht). destruct (takeUpTo n p r). reflexivity.
Qed.

Lemma lastOutside_suffix cls a r :
  lastOutside cls (a ++ r) -> lastOutside cls r.
Proof.
  unfold lastOutside. rewrite rev_app_distr.
  destruct (rev r) as [|c r']; simpl; auto.
Qed.

Lemma lastOutside_not_all cls pre :
  lastOutside cls pre -> pre <> [] -> forallb cls pre = true -> False.
Proof.
  unfold lastOutside. intros H Hne Hall.
  destruct (rev pre) as [|c r] eqn:E.
  - apply (f_equal (@rev byte)) in E. rewrite rev_involutive in E.
    simpl in E. congruence.
  - assert (Hin : In c pre) by (apply in_rev; rewrite E; left; reflexivity).
    rewrite (forallb_In _ _ _ Hall Hin) in H. discriminate.
Qed.

Section Delimited.

Variable cls : byte -> bool.
Hypothesis cls_padFree : padFree cls.

Lemma matchAt_in_prefix pre x t m rest :
  lastOutside cls pre -> pre <> [] -> cls x = true ->
  matchAt cls (pre ++ x :: t) = Some (m, rest) ->
  exists pre', rest = pre' ++ x :: t /\ pre = m ++ pre'.
Proof.
  intros Hlast Hne Hx. unfold matchAt.
  destruct (span cls pre) as [run r] eqn:E.
  assert (Hr : r <> []).
  { intros ->. apply span_spec in E as (-> & Hrun & _).
    rewrite app_nil_r in *. eapply lastOutside_not_all; eauto. }
  rewrite (span_app_l _ _ _ _ _ E Hr).
  destruct (Nat.leb_spec 4 (List.length run)); [|discriminate].
  rewrite takeUpTo_app_l
    by (simpl; destruct (isPad x) eqn:Ep; [|reflexivity];
        apply (pad_outside cls cls_padFree) in Ep; congruence).
  destruct (takeUpTo 2 isPad r) as [pad r'] eqn:E'. simpl.
  intros Hm; inversion Hm; subst.
  exists r'. split; [reflexivity|].
  apply span_spec in E as (-> & _). apply takeUpTo_spec in E' as (-> & _).
  now rewrite app_assoc.
Qed.

Lemma delimited_match run pad post :
  (4 <= List.length run)%nat -> forallb cls run = true ->
  forallb isPad pad = true -> (List.length pad <= 2)%nat ->
  delimited cls [] (run ++ pad) post ->
  matchAt cls ((run ++ pad) ++ post) = Some (run ++ pad, post).
Proof.
  intros Hn Hrun Hpad Hp (_ & H1 & H2).
  rewrite <- app_assoc. apply matchAt_eq; auto.
  - intros ->. apply H1. rewrite app_nil_r. exact Hrun.
  - intros Hlt. apply H2.
    rewrite (TrimRightPad_match cls) by auto. rewrite length_app. lia.
Qed.

Lemma FindAllString_delimited_aux n : forall pre s post,
  (List.length pre <= n)%nat ->
  matchesInFull cls s -> delimited cls pre s post ->
  In s (FindAllString cls (pre ++ s ++ post)).
Proof.
  induction n as [|n IH]; intros pre s post Hlen Hs Hd.
  - destruct pre; simpl in Hlen; [|lia]. simpl.
    destruct Hs as (run & pad & -> & Hn & Hrun & Hpad & Hp).
    assert (Hm : matchAt cls ((run ++ pad) ++ post) = Some (run ++ pad, post)).
    { apply delimited_match; auto. }
    destruct ((run ++ pad) ++ post) as [|c l] eqn:E.
    + destruct run; simpl in *; [lia | discriminate].
    + rewrite FindAllString_cons, Hm. left. reflexivity.
  - destruct pre as [|c pre].
    + apply (IH [] s post); [simpl; lia | exact Hs | exact Hd].
    + assert (Hd' : forall a r, c :: pre = a ++ r -> delimited cls r s post).
      { intros a r Heq. destruct Hd as (H0 & H1 & H2).
        repeat split; auto. rewrite Heq in H0.
        eapply lastOutside_suffix; eauto. }
      destruct (Hs) as (run & pad & Es & Hn & Hrun & _).
      destruct run as [|x run]; [simpl in Hn; lia|].
      assert (Hx : cls x = true)
        by (simpl in Hrun; apply andb_true_iff in Hrun; tauto).
      cbn [app]. rewrite FindAllString_cons.
      destruct (matchAt cls (c :: pre ++ s ++ post)) as [[m rest]|] eqn:E.
      * right. subst s. simpl in E.
        change (c :: pre ++ x :: (run ++ pad) ++ post)
          with ((c :: pre) ++ x :: (run ++ pad) ++ post) in E.
        pose proof (matchAt_inv _ _ _ _ E) as (_ & r0 & p0 & Em & Hn0 & _).
        apply matchAt_in_prefix in E as (pre' & -> & Epre); auto;
          [| destruct Hd; assumption | discriminate].
        change (pre' ++ x :: (run ++ pad) ++ post)
          with (pre' ++ ((x :: run) ++ pad) ++ post).
        apply IH; auto.
        -- apply (f_equal (@List.length byte)) in Epre.
           apply (f_equal (@List.length byte)) in Em.
           rewrite length_app in Epre, Em. simpl in *. lia.
        -- eapply Hd'; eauto.
      * apply IH; [simpl in Hlen; lia | exact Hs |].
        apply (Hd' [c] pre). reflexivity.
Qed.

End Delimited.

(** ** [findBase64Patterns] *)

Lemma seenLookup_In seen m : seenLookup seen m = true <-> In m seen.
Proof.
  unfold seenLookup. rewrite existsb_exists. split.
  - intros (x & Hx & Heq). apply str_eqb_eq in Heq. subst. exact Hx.
  - intros H. exists m. split; [exact H | now apply str_eqb_eq].
Qed.

Lemma collectMatch_spec config st m :
  seenAgrees st ->
  seenAgrees (collectMatch config st m)
  /\ (forall x, In x (fst (collectMatch config st m)) <->
                In x (fst st) \/ (x = m /\ admissible config m = true))
  /\ (NoDup (fst st) -> NoDup (fst (collectMatch config st m))).
Proof.
  destruct st as [matches seen]. unfold seenAgrees, collectMatch, admissible.
  simpl. intros Hs.
  destruct ((minLength config <=? len m) && isValidBase64Length m).
  - destruct (seenLookup seen m) eqn:E; simpl.
    + apply Hs in E. repeat split; auto; try apply Hs; try tauto.
      intros [H | [-> _]]; auto.
    + assert (Hnot : ~ In m matches) by (rewrite <- Hs; congruence).
      repeat split.
      * unfold seenStore, seenLookup. simpl. rewrite orb_true_iff, in_app_iff.
        intros [H | H]; [right; left; symmetry; now apply str_eqb_eq|].
        left. now apply Hs.
      * unfold seenStore, seenLookup. simpl. rewrite orb_true_iff, in_app_iff.
        intros [H | [-> | []]]; [right; now apply Hs|].
        left. now apply str_eqb_eq.
      * rewrite in_app_iff. simpl. intuition.
      * rewrite in_app_iff. simpl. intuition.
      * intros Hnd. apply NoDup_app; [exact Hnd | repeat constructor; auto |].
        intros x Hx [-> | []]. auto.
  - repeat split; auto; try apply Hs; try tauto. intros [H | [_ H]]; auto.
    discriminate.
Qed.

Lemma fold_collect config ms : forall st,
  seenAgrees st ->
  seenAgrees (fold_left (collectMatch config) ms st)
  /\ (forall x, In x (fst (fold_left (collectMatch config) ms st)) <->
                In x (fst st) \/ (In x ms /\ admissible config x = true))
  /\ (NoDup (fst st) -> NoDup (fst (fold_left (collectMatch config) ms st))).
Proof.
  induction ms as [|m ms IH]; intros st Hs; simpl.
  - split; [exact Hs|]. split; [|auto]. intros x. tauto.
  - destruct (collectMatch_spec config st m Hs) as (H1 & H2 & H3).
    destruct (IH _ H1) as (H4 & H5 & H6).
    repeat split; auto; try apply H4.
    + intros H. apply H5 in H as [H | H].
      * apply H2 in H as [H | [-> H]]; auto.
      * right. tauto.
    + intros [H | [[<- | H] Ha]]; apply H5.
      * left. apply H2. auto.
      * left. apply H2. auto.
      * right. auto.
Qed.

Lemma findBase64Patterns_In config content m :
  In m (findBase64Patterns config content) <->
  admissible config m = true
  /\ (In m (FindAllString stdB64Pattern content)
      \/ (config.(urlSafe) = true
          /\ In m (FindAllString urlB64Pattern content))).
Proof.
  unfold findBase64Patterns.
  assert (H0 : seenAgrees ([], [])) by (intros x; simpl; split; [discriminate | tauto]).
  destruct (fold_collect config (FindAllString stdB64Pattern content) _ H0)
    as (H1 & H2 & _).
  destruct (urlSafe config).
  - destruct (fold_collect config (FindAllString urlB64Pattern content) _ H1)
      as (_ & H3 & _).
    rewrite H3, H2. simpl. intuition congruence.
  - rewrite H2. simpl. intuition congruence.
Qed.

Lemma findBase64Patterns_NoDup config content :
  NoDup (findBase64Patterns config content).
Proof.
  unfold findBase64Patterns.
  assert (H0 : seenAgrees ([], [])) by (intros x; simpl; split; [discriminate | tauto]).
  destruct (fold_collect config (FindAllString stdB64Pattern content) _ H0)
    as (H1 & _ & H3).
  specialize (H3 (NoDup_nil _)).
  destruct (urlSafe config); [|exact H3].
  apply (fold_collect config (FindAllString urlB64Pattern content) _ H1), H3.
Qed.

Lemma stdClass_padFree : padFree stdClass.
Proof. exact stdClass_not_pad. Qed.

Lemma urlClass_padFree : padFree urlClass.
Proof. exact urlClass_not_pad. Qed.

(** The shape of a candidate: a full match of one of the two patterns. *)
Lemma candidate_shape config content m :
  In m (findBase64Patterns config content) ->
  matchesInFull stdClass m \/ matchesInFull urlClass m.
Proof.
  intros H. apply findBase64Patterns_In in H as (_ & [H | [_ H]]).
  - left. pose proof (FindAllString_full stdClass content) as F.
    rewrite Forall_forall in F. auto.
  - right. pose proof (FindAllString_full urlClass content) as F.
    rewrite Forall_forall in F. auto.
Qed.

Lemma isValidBase64Length_spec s :
  isValidBase64Length s = true <->
  strippedLength s mod 4 = 0 \/ strippedLength s mod 4 = 2
  \/ strippedLength s mod 4 = 3.
Proof.
  unfold isValidBase64Length, strippedLength.
  rewrite !orb_true_iff, !Z.eqb_eq. tauto.
Qed.

Lemma isValidBase64Length_not1 s :
  isValidBase64Length s = true <-> strippedLength s mod 4 <> 1.
Proof.
  rewrite isValidBase64Length_spec.
  pose proof (Z.mod_pos_bound (strippedLength s) 4). lia.
Qed.

(** ** The loops of [findAndDecode] *)

Section Loops.

Variable P : Z -> bool.
Variable config : Config.

Lemma processMatch_fields m st :
  lineNum (processMatch P config m st) = lineNum st
  /\ totalFound (processMatch P config m st) = totalFound st + 1
  /\ attempted (processMatch P config m st) = attempted st ++ [m]
  /\ stdout (processMatch P config m st)
     = stdout st ++ outputOf P config (lineNum st) m.
Proof.
  unfold processMatch, outputOf.
  destruct (decodeBase64 config m) as [decoded [e|]].
  - destruct (verbose config); simpl; rewrite app_nil_r; auto.
  - destruct (isValidOutput P decoded); simpl.
    + destruct (showOffset config), (verbose config); simpl; auto.
    + rewrite app_nil_r; auto.
Qed.

Lemma processAll_fields ms : forall st,
  lineNum (processAll P config ms st) = lineNum st
  /\ totalFound (processAll P config ms st) = totalFound st + Z.of_nat (List.length ms)
  /\ attempted (processAll P config ms st) = attempted st ++ ms
  /\ stdout (processAll P config ms st)
     = stdout st ++ List.concat (map (outputOf P config (lineNum st)) ms).
Proof.
  induction ms as [|m ms IH]; intros st; simpl.
  - rewrite !app_nil_r. repeat split; lia.
  - destruct (IH (processMatch P config m st)) as (H1 & H2 & H3 & H4).
    destruct (processMatch_fields m st) as (F1 & F2 & F3 & F4).
    unfold processAll in *. rewrite H1, H2, H3, H4, F1, F2, F3, F4.
    rewrite <- !app_assoc. repeat split; auto. lia.
Qed.

Lemma atLimit_fields st :
  lineNum (atLimit config st) = lineNum st
  /\ totalFound (atLimit config st) = totalFound st
  /\ attempted (atLimit config st) = attempted st
  /\ stdout (atLimit config st) = stdout st.
Proof. unfold atLimit. destruct (verbose config); simpl; auto. Qed.

(** The loop over the matches of a line processes as many of them as
    there is room for, and returns when one is left over. *)
Lemma rangeMatches_eq ms : forall st,
  rangeMatches P config ms st =
  if (List.length ms <=? room st)%nat then Next (processAll P config ms st)
  else Return (atLimit config (processAll P config (firstn (room st) ms) st))
              None.
Proof.
  induction ms as [|m ms IH]; intros st; [reflexivity|].
  cbn [rangeMatches]. unfold room at 1 2.
  destruct (Z.leb_spec maxMatches (totalFound st)) as [H | H].
  - replace (Z.to_nat (maxMatches - totalFound st)) with 0%nat by lia.
    reflexivity.
  - rewrite IH. destruct (processMatch_fields m st) as (_ & F2 & _).
    unfold room. rewrite F2.
    replace (Z.to_nat (maxMatches - totalFound st))
      with (S (Z.to_nat (maxMatches - (totalFound st + 1)))) by lia.
    reflexivity.
Qed.

Lemma room_processAll ms st :
  (List.length ms <= room st)%nat ->
  room (processAll P config ms st) = (room st - List.length ms)%nat.
Proof.
  intros H. destruct (processAll_fields ms st) as (_ & F & _).
  unfold room in *. rewrite F. lia.
Qed.

(** The scanning loop: the candidates attempted are the first candidates
    of the lines, as many as there is room for; the function returns
    from inside the loop exactly when a candidate is left over. *)
Lemma scanLoop_spec lines : forall st,
  let f := scanLoop P config lines st in
  let cands := allCandidates config lines in
  attempted (flowState f) = attempted st ++ firstn (room st) cands
  /\ totalFound (flowState f)
     = totalFound st + Z.of_nat (List.length (firstn (room st) cands))
  /\ (returned f = true <-> (room st < List.length cands)%nat)
  /\ (returned f = true -> f = Return (flowState f) None).
Proof.
  induction lines as [|line lines IH]; intros st; cbn zeta.
  - simpl. rewrite firstn_nil, app_nil_r. simpl.
    repeat split; try lia; discriminate.
  - cbn [scanLoop]. rewrite rangeMatches_eq.
    set (st1 := setLineNum st (lineNum st + 1)).
    assert (Hroom : room st1 = room st) by reflexivity.
    unfold allCandidates. cbn [map List.concat]. fold (allCandidates config lines).
    set (ms := findBase64Patterns config line).
    rewrite Hroom. rewrite length_app, firstn_app.
    destruct (Nat.leb_spec (List.length ms) (room st)) as [Hle | Hgt].
    + cbn iota.
      destruct (IH (processAll P config ms st1)) as (H1 & H2 & H3 & H4).
      destruct (processAll_fields ms st1) as (_ & F2 & F3 & _).
      rewrite room_processAll in * by (rewrite Hroom; exact Hle).
      rewrite Hroom in *. cbn zeta in *.
      rewrite H1, H2, F2, F3, (firstn_all2 ms) by exact Hle.
      rewrite <- app_assoc, length_app.
      split; [reflexivity|]. split; [change (totalFound st1) with (totalFound st); lia|].
      split; [|exact H4].
      rewrite H3. lia.
    + simpl.
      destruct (atLimit_fields (processAll P config (firstn (room st) ms) st1))
        as (_ & A2 & A3 & _).
      destruct (processAll_fields (firstn (room st) ms) st1)
        as (_ & F2 & F3 & _).
      rewrite A2, A3, F2, F3.
      replace (room st - List.length ms)%nat with 0%nat by lia.
      rewrite firstn_O, app_nil_r.
      repeat split; auto. intros _. lia.
Qed.

Lemma rangeMatches_lineNum ms st :
  lineNum (flowState (rangeMatches P config ms st)) = lineNum st.
Proof.
  rewrite rangeMatches_eq.
  destruct (List.length ms <=? room st)%nat; simpl.
  - apply processAll_fields.
  - destruct (atLimit_fields (processAll P config (firstn (room st) ms) st))
      as (-> & _). apply processAll_fields.
Qed.

(** When the function returns from inside the loop, it has read the
    lines up to the one in which it returned, and what follows that line
    has no part in the outcome. *)
Lemma scanLoop_return_prefix lines : forall st st' res,
  scanLoop P config lines st = Return st' res ->
  exists scanned last rest,
    lines = scanned ++ last :: rest
    /\ lineNum st' = lineNum st + Z.of_nat (List.length scanned) + 1
    /\ returned (scanLoop P config scanned st) = false
    /\ forall rest',
         scanLoop P config (scanned ++ last :: rest') st = Return st' res.
Proof.
  induction lines as [|line lines IH]; intros st st' res H; [discriminate|].
  cbn [scanLoop] in H.
  pose proof (rangeMatches_lineNum (findBase64Patterns config line)
                (setLineNum st (lineNum st + 1))) as Hn.
  destruct (rangeMatches P config (findBase64Patterns config line)
              (setLineNum st (lineNum st + 1))) as [st2 | st2 r2] eqn:E.
  - apply IH in H as (scanned & last & rest & -> & Hl & Hr & Hp).
    exists (line :: scanned), last, rest. simpl in Hn.
    repeat split.
    + rewrite Hl, Hn. cbn [List.length]. lia.
    + cbn [scanLoop]. rewrite E. exact Hr.
    + intros rest'. cbn [app scanLoop]. rewrite E. apply Hp.
  - inversion H; subst. exists [], line, lines. simpl in Hn.
    repeat split.
    + rewrite Hn. simpl. lia.
    + intros rest'. cbn [app scanLoop]. rewrite E. reflexivity.
Qed.

Lemma afterLoop_fields scanErr st :
  lineNum (fst (afterLoop config scanErr st)) = lineNum st
  /\ totalFound (fst (afterLoop config scanErr st)) = totalFound st
  /\ attempted (fst (afterLoop config scanErr st)) = attempted st
  /\ stdout (fst (afterLoop config scanErr st)) = stdout st.
Proof.
  unfold afterLoop. destruct scanErr; [simpl; auto|].
  destruct (verbose config); simpl; auto.
Qed.

Lemma maxMatches_nonneg : 0 <= maxMatches.
Proof. unfold maxMatches. lia. Qed.

Lemma room_init : room initState = Z.to_nat maxMatches.
Proof. unfold room. f_equal. Qed.

(** The candidates a run attempts to decode and counts. *)
Lemma findAndDecodeLines_attempted lines scanErr :
  let st := fst (findAndDecodeLines P config lines scanErr) in
  attempted st = firstn (Z.to_nat maxMatches) (allCandidates config lines)
  /\ totalFound st = Z.of_nat (List.length (attempted st)).
Proof.
  cbn zeta. unfold findAndDecodeLines.
  destruct (scanLoop_spec lines initState) as (H1 & H2 & _).
  rewrite room_init in H1, H2.
  change (attempted initState) with (@nil gostring) in H1.
  change (totalFound initState) with 0 in H2.
  rewrite app_nil_l in H1. rewrite Z.add_0_l in H2.
  destruct (scanLoop P config lines initState) as [st | st r];
    cbn [flowState fst] in *.
  - destruct (afterLoop_fields scanErr st) as (_ & -> & -> & _).
    rewrite H1, H2. auto.
  - rewrite H1, H2. auto.
Qed.

End Loops.

Lemma In_allCandidates config lines m :
  In m (allCandidates config lines) <->
  exists line, In line lines /\ In m (findBase64Patterns config line).
Proof.
  unfold allCandidates. rewrite in_concat. split.
  - intros (l & Hl & Hm). apply in_map_iff in Hl as (line & <- & Hin). eauto.
  - intros (line & Hin & Hm). eexists. split; [|exact Hm].
    apply in_map. exact Hin.
Qed.

Lemma In_firstn {A} n (l : list A) x : In x (firstn n l) -> In x l.
Proof.
  intros H. rewrite <- (firstn_skipn n l). apply in_or_app. auto.
Qed.

(** ** The match limit *)

(** C4 (refuted as stated): a file of 10000 lines [AAAA], three lines
    [--] and one more line [AAAA] holds 10001 candidates.  After line
    10000 the counter has reached the limit, but the run goes on
    reading: the limit is tested only when a further candidate is met,
    and the run returns in line 10004. *)
Lemma run_reads_on_after_the_limit :
  maxMatches
    < Z.of_nat (List.length
                  (allCandidates defaultConfig
                     (fst (scanLines (fileOf limitProbe)))))
  /\ totalFound (fst (findAndDecode (fun _ => true) defaultConfig
                        (fileOf limitProbeHead))) = maxMatches
  /\ lineNum (fst (findAndDecode (fun _ => true) defaultConfig
                     (fileOf limitProbeHead))) = 10000
  /\ totalFound (fst (findAndDecode (fun _ => true) defaultConfig
                        (fileOf limitProbe))) = maxMatches
  /\ lineNum (fst (findAndDecode (fun _ => true) defaultConfig
                     (fileOf limitProbe))) = 10004.
Proof. vm_compute. repeat split; reflexivity. Qed.

(** C4 (amended): when the lines the scanner delivers hold more than
    10000 candidates, the run counts and attempts to decode exactly the
    first 10000 of them and returns [nil] when it meets the 10001st: it
    has then read the lines up to the one that holds that candidate, and
    nothing behind that line, be it further lines or a read error, has
    any part in the outcome. *)
Theorem match_limit_stops_run :
  forall (PrintRanges : Z -> bool) (config : Config) (r : Reader),
    maxMatches
      < Z.of_nat (List.length (allCandidates config (fst (scanLines r)))) ->
    let st := fst (findAndDecode PrintRanges config r) in
    totalFound st = maxMatches
    /\ attempted st
       = firstn (Z.to_nat maxMatches)
           (allCandidates config (fst (scanLines r)))
    /\ Z.of_nat (List.length (attempted st)) = maxMatches
    /\ snd (findAndDecode PrintRanges config r) = None
    /\ exists scanned last rest,
         fst (scanLines r) = scanned ++ last :: rest
         /\ lineNum st = Z.of_nat (List.length scanned) + 1
         /\ Z.of_nat (List.length (allCandidates config scanned))
            <= maxMatches
         /\ maxMatches
            < Z.of_nat (List.length (allCandidates config (scanned ++ [last])))
         /\ forall rest' scanErr',
              findAndDecodeLines PrintRanges config
                (scanned ++ last :: rest') scanErr'
              = findAndDecode PrintRanges config r.
Proof.
  intros P config r Hmore. cbn zeta. unfold findAndDecode.
  pose proof maxMatches_nonneg as Hmax.
  destruct (scanLines r) as [lines scanErr]. cbn [fst snd] in Hmore |- *.
  destruct (findAndDecodeLines_attempted P config lines scanErr) as [Ha Ht].
  cbn zeta in Ha, Ht.
  assert (Hlen : Z.of_nat (List.length
                   (firstn (Z.to_nat maxMatches) (allCandidates config lines)))
                 = maxMatches).
  { rewrite length_firstn. lia. }
  rewrite Ht, Ha. split; [exact Hlen|]. split; [reflexivity|].
  split; [exact Hlen|].
  unfold findAndDecodeLines.
  destruct (scanLoop_spec P config lines initState) as (_ & _ & H3 & H4).
  cbn zeta in H3, H4.
  destruct (scanLoop P config lines initState) as [st | st res] eqn:E.
  - cbn [returned] in H3. destruct H3 as [_ H3]. rewrite room_init in H3.
    assert (false = true) by (apply H3; lia).
    discriminate.
  - cbn [returned flowState] in H4. specialize (H4 eq_refl).
    inversion H4; subst res. split; [reflexivity|].
    destruct (scanLoop_return_prefix P config lines _ _ _ E)
      as (scanned & last & rest & El & Hl & Hr & Hp).
    exists scanned, last, rest. cbn [fst].
    split; [exact El|]. split; [exact Hl|]. split; [|split].
    + destruct (scanLoop_spec P config scanned initState) as (_ & _ & S3 & _).
      cbn zeta in S3. rewrite Hr, room_init in S3.
      destruct (Z_le_gt_dec
                  (Z.of_nat (List.length (allCandidates config scanned)))
                  maxMatches) as [Hle | Hgt]; [exact Hle|].
      assert (false = true) by (apply S3; lia).
      discriminate.
    + destruct (scanLoop_spec P config (scanned ++ [last]) initState)
        as (_ & _ & S3 & _).
      cbn zeta in S3. rewrite (Hp []), room_init in S3.
      cbn [returned] in S3. destruct S3 as [S3 _]. specialize (S3 eq_refl).
      lia.
    + intros rest' scanErr'. rewrite Hp. reflexivity.
Qed.

Lemma match_limit_stops_run_witness :
  totalFound (fst (findAndDecode (fun _ => true) defaultConfig
                     (fileOf (repeatedLines (B "AAAA") 10001))))
  = maxMatches.
Proof.
  exact (proj1 (match_limit_stops_run (fun _ => true) defaultConfig
                  (fileOf (repeatedLines (B "AAAA") 10001))
                  ltac:(vm_compute; reflexivity))).
Defined.

(** ** Length validation *)

(** C6: a candidate is accepted exactly when the length it has after its
    trailing ['='] are stripped leaves the remainder 0, 2 or 3 modulo 4;
    the test is made before a match enters the sequence of candidates, so
    no string whose stripped length is 1 modulo 4 is a candidate or is
    ever passed to the decoder. *)
Theorem length_validation_before_decoding :
  forall (PrintRanges : Z -> bool) (config : Config),
    (forall s,
       isValidBase64Length s = true <->
       strippedLength s mod 4 = 0 \/ strippedLength s mod 4 = 2
       \/ strippedLength s mod 4 = 3)
    /\ (forall s,
          isValidBase64Length s = false <-> strippedLength s mod 4 = 1)
    /\ (forall line m,
          In m (findBase64Patterns config line) ->
          isValidBase64Length m = true /\ strippedLength m mod 4 <> 1)
    /\ (forall r m,
          In m (attempted (fst (findAndDecode PrintRanges config r))) ->
          (exists line, In line (fst (scanLines r))
                        /\ In m (findBase64Patterns config line))
          /\ strippedLength m mod 4 <> 1).
Proof.
  intros P config.
  assert (Hc : forall line m, In m (findBase64Patterns config line) ->
               isValidBase64Length m = true /\ strippedLength m mod 4 <> 1).
  { intros line m H. apply findBase64Patterns_In in H as [H _].
    unfold admissible in H. apply andb_true_iff in H as [_ H].
    split; [exact H | now apply isValidBase64Length_not1]. }
  split; [exact isValidBase64Length_spec|]. split; [|split; [exact Hc|]].
  - intros s. rewrite <- not_true_iff_false, isValidBase64Length_not1.
    lia.
  - intros r m H. unfold findAndDecode in H.
    destruct (scanLines r) as [lines scanErr]. cbn [fst].
    destruct (findAndDecodeLines_attempted P config lines scanErr) as [Ha _].
    cbn zeta in Ha. rewrite Ha in H. apply In_firstn in H.
    apply In_allCandidates in H as (line & Hl & Hm).
    split; [eauto | apply (Hc line m Hm)].
Qed.

(** ** Decoding a candidate *)

Lemma decodeQuantumFrom_plain enc j dbuf c rest :
  plainFor enc c ->
  decodeQuantumFrom enc j dbuf (c :: rest) =
  if negb (decodeMap enc c =? 255) then
    match j with
    | 3%nat => finishQuantum enc (dbuf ++ [decodeMap enc c]) 4 rest None
    | _ => decodeQuantumFrom enc (S j) (dbuf ++ [decodeMap enc c]) rest
    end
  else mkQuantum rest [] (Some CorruptInput).
Proof.
  intros [Hn Hp]. cbn [decodeQuantumFrom]. rewrite Hn, Hp. reflexivity.
Qed.

Lemma finishQuantum_four enc dbuf rest err :
  List.length (q_out (finishQuantum enc dbuf 4 rest err)) = 3%nat
  /\ q_rest (finishQuantum enc dbuf 4 rest err) = rest
  /\ q_err (finishQuantum enc dbuf 4 rest err) = err.
Proof. unfold finishQuantum, quantumBytes. simpl. auto. Qed.

(** A quantum that starts with four plain bytes either fails or yields
    three bytes. *)
Lemma decodeQuantum_four enc a b c d rest :
  plainFor enc a -> plainFor enc b -> plainFor enc c -> plainFor enc d ->
  q_err (decodeQuantum enc (a :: b :: c :: d :: rest)) = None ->
  List.length (q_out (decodeQuantum enc (a :: b :: c :: d :: rest))) = 3%nat
  /\ q_rest (decodeQuantum enc (a :: b :: c :: d :: rest)) = rest.
Proof.
  intros Ha Hb Hc Hd. unfold decodeQuantum.
  rewrite (decodeQuantumFrom_plain enc _ _ a _ Ha).
  destruct (negb (decodeMap enc a =? 255)); [|discriminate].
  rewrite (decodeQuantumFrom_plain enc _ _ b _ Hb).
  destruct (negb (decodeMap enc b =? 255)); [|discriminate].
  rewrite (decodeQuantumFrom_plain enc _ _ c _ Hc).
  destruct (negb (decodeMap enc c =? 255)); [|discriminate].
  rewrite (decodeQuantumFrom_plain enc _ _ d _ Hd).
  destruct (negb (decodeMap enc d =? 255)); [|discriminate].
  intros _. split; apply finishQuantum_four.
Qed.

Lemma DecodeFrom_cons enc f c src :
  DecodeFrom enc (S f) (c :: src) =
  match q_err (decodeQuantum enc (c :: src)) with
  | Some e => (q_out (decodeQuantum enc (c :: src)), Some e)
  | None =>
      (q_out (decodeQuantum enc (c :: src))
       ++ fst (DecodeFrom enc f (q_rest (decodeQuantum enc (c :: src)))),
       snd (DecodeFrom enc f (q_rest (decodeQuantum enc (c :: src)))))
  end.
Proof.
  cbn [DecodeFrom]. destruct (q_err _); [reflexivity|].
  destruct (DecodeFrom enc f _). reflexivity.
Qed.

Lemma DecodeString_four enc a b c d rest decoded :
  plainFor enc a -> plainFor enc b -> plainFor enc c -> plainFor enc d ->
  DecodeString enc (a :: b :: c :: d :: rest) = (decoded, None) ->
  (3 <= List.length decoded)%nat.
Proof.
  intros Ha Hb Hc Hd. unfold DecodeString. cbn [List.length].
  rewrite DecodeFrom_cons.
  pose proof (decodeQuantum_four enc a b c d rest Ha Hb Hc Hd) as Hq.
  set (q := decodeQuantum enc (a :: b :: c :: d :: rest)) in *.
  destruct (q_err q); [discriminate|].
  destruct (Hq eq_refl) as [Hlen _].
  intros H. inversion H; subst. rewrite length_app. lia.
Qed.

Lemma class_plain v c :
  stdClass c = true \/ urlClass c = true -> plainFor (encodingOf v) c.
Proof.
  intros H. unfold plainFor.
  destruct v; destruct c; vm_compute in H |- *;
    first [ split; reflexivity | destruct H; discriminate ].
Qed.

Lemma matchesInFull_head cls s :
  matchesInFull cls s ->
  exists a b c d rest,
    s = a :: b :: c :: d :: rest
    /\ cls a = true /\ cls b = true /\ cls c = true /\ cls d = true.
Proof.
  intros (run & pad & -> & Hn & Hrun & _).
  destruct run as [|a [|b [|c [|d run]]]]; simpl in Hn; try lia.
  simpl in Hrun. rewrite !andb_true_iff in Hrun.
  exists a, b, c, d, (run ++ pad). tauto.
Qed.

(** C10: a candidate starts with four alphabet characters; a decode of it
    that succeeds, under any of the four variants, yields at least three
    bytes, so [isValidOutput] never meets the empty string in a run and
    the length it divides by is positive. *)
Theorem candidate_decodes_to_nonempty :
  forall (PrintRanges : Z -> bool) (config : Config)
         (line m : gostring),
    In m (findBase64Patterns config line) ->
    (exists run pad,
       m = run ++ pad /\ (4 <= List.length run)%nat
       /\ (forallb stdClass run = true \/ forallb urlClass run = true)
       /\ forallb isPad pad = true)
    /\ (forall v decoded,
          attempt v m = Some decoded -> 3 <= len decoded)
    /\ (forall decoded,
          decodeBase64 config m = (decoded, None) ->
          decoded <> [] /\ 0 < len decoded
          /\ isValidOutput PrintRanges decoded
             = match scanRunes PrintRanges (runes decoded) 0 with
               | None => false
               | Some printableCount =>
                   ratioAtLeast75 printableCount (len decoded)
               end).
Proof.
  intros P config line m Hin.
  pose proof (candidate_shape _ _ _ Hin) as Hshape.
  assert (Hlen : forall v decoded,
            attempt v m = Some decoded -> 3 <= len decoded).
  { intros v decoded Hv. unfold attempt in Hv.
    destruct (DecodeString (encodingOf v) m) as [dec [e|]] eqn:E;
      [discriminate|]. inversion Hv; subst dec.
    assert (exists a b c d rest, m = a :: b :: c :: d :: rest
              /\ plainFor (encodingOf v) a /\ plainFor (encodingOf v) b
              /\ plainFor (encodingOf v) c /\ plainFor (encodingOf v) d)
      as (a & b & c & d & rest & -> & Ha & Hb & Hc & Hd).
    { destruct Hshape as [Hs | Hs];
        apply matchesInFull_head in Hs
          as (a & b & c & d & rest & -> & Ha & Hb & Hc & Hd);
        exists a, b, c, d, rest; repeat split; auto;
          apply class_plain; auto. }
    pose proof (DecodeString_four _ _ _ _ _ _ _ Ha Hb Hc Hd E).
    unfold len. lia. }
  split; [|split; [exact Hlen|]].
  - destruct Hshape as [(run & pad & H) | (run & pad & H)];
      exists run, pad; tauto.
  - intros decoded Hd.
    assert (H3 : 3 <= len decoded).
    { pose proof (decodeBase64_firstSuccess config m) as Hf.
      rewrite Hd in Hf.
      destruct (firstSuccess (attemptOrder config) m) as [dec|] eqn:E;
        [|discriminate]. inversion Hf; subst dec. clear Hf.
      induction (attemptOrder config) as [|v vs IH]; [discriminate|].
      simpl in E. destruct (attempt v m) as [dec|] eqn:Ev.
      - inversion E; subst. eapply Hlen; eauto.
      - auto. }
    destruct decoded as [|b decoded]; [unfold len in H3; simpl in H3; lia|].
    split; [discriminate|]. split; [lia | reflexivity].
Qed.

Lemma candidate_decodes_to_nonempty_witness :
  3 <= len (B "hello world").
Proof.
  refine (proj1 (proj2 (candidate_decodes_to_nonempty (fun _ => true)
            defaultConfig (B "user=aGVsbG8gd29ybGQ=&id=5")
            (B "aGVsbG8gd29ybGQ=") _)) StdPadded (B "hello world") _).
  - vm_compute. right. left. reflexivity.
  - vm_compute. reflexivity.
Defined.

(** ** The fuel of the decoders is enough *)

Lemma skipNewlines_length src :
  (List.length (skipNewlines src) <= List.length src)%nat.
Proof.
  induction src as [|c src IH]; simpl; [lia|].
  destruct (isNewline c); simpl; lia.
Qed.

Lemma finishQuantum_rest enc dbuf dlen rest err :
  q_rest (finishQuantum enc dbuf dlen rest err) = rest.
Proof. unfold finishQuantum. destruct (quantumBytes _ _ _ _ _ _); reflexivity. Qed.

Lemma afterPadding_length enc dbuf j rest :
  (List.length (q_rest (afterPadding enc dbuf j rest)) <= List.length rest)%nat.
Proof.
  pose proof (skipNewlines_length rest) as Hs.
  unfold afterPadding. destruct j as [|[|[|j]]]; simpl; try lia.
  - destruct (skipNewlines rest) as [|c rest'] eqn:E; simpl; [lia|].
    destruct (isPadOf enc c); simpl.
    + rewrite finishQuantum_rest.
      pose proof (skipNewlines_length rest'). simpl in Hs. lia.
    + simpl in Hs. lia.
  - rewrite finishQuantum_rest. exact Hs.
Qed.

Lemma decodeQuantumFrom_length enc src : forall j dbuf,
  (List.length (q_rest (decodeQuantumFrom enc j dbuf src))
   <= List.length src)%nat.
Proof.
  induction src as [|c rest IH]; intros j dbuf; cbn [decodeQuantumFrom].
  - destruct j as [|[|j]]; simpl; try lia.
    destruct (hasPadding enc); [simpl; lia|].
    rewrite finishQuantum_rest. simpl. lia.
  - cbn zeta. destruct (negb (decodeMap enc c =? 255)).
    + destruct j as [|[|[|[|j]]]]; cbn iota;
        first [ rewrite finishQuantum_rest; simpl; lia
              | match goal with
                | |- context [decodeQuantumFrom enc ?k ?d rest] =>
                    pose proof (IH k d); simpl; lia
                end ].
    + destruct (isNewline c); [pose proof (IH j dbuf); simpl; lia|].
      destruct (negb (isPadOf enc c)); [simpl; lia|].
      pose proof (afterPadding_length enc dbuf j rest). simpl. lia.
Qed.

(** A quantum uses up at least one byte. *)
Lemma decodeQuantum_shorter enc c rest :
  (List.length (q_rest (decodeQuantum enc (c :: rest)))
   <= List.length rest)%nat.
Proof.
  unfold decodeQuantum. cbn [decodeQuantumFrom]. cbn zeta.
  destruct (negb (decodeMap enc c =? 255)).
  - apply decodeQuantumFrom_length.
  - destruct (isNewline c); [apply decodeQuantumFrom_length|].
    destruct (negb (isPadOf enc c)); [simpl; lia|].
    apply afterPadding_length.
Qed.

(** [DecodeString] never runs out of fuel: any fuel from the length of
    the input on gives the same result. *)
Lemma DecodeFrom_fuel enc : forall fuel1 fuel2 src,
  (List.length src <= fuel1)%nat -> (List.length src <= fuel2)%nat ->
  DecodeFrom enc fuel1 src = DecodeFrom enc fuel2 src.
Proof.
  induction fuel1 as [|f1 IH]; intros fuel2 src H1 H2.
  - destruct src; simpl in H1; [|lia]. destruct fuel2; reflexivity.
  - destruct src as [|c rest]; [destruct fuel2; reflexivity|].
    destruct fuel2 as [|f2]; [simpl in H2; lia|].
    rewrite !DecodeFrom_cons.
    pose proof (decodeQuantum_shorter enc c rest) as Hq.
    destruct (q_err (decodeQuantum enc (c :: rest))); [reflexivity|].
    simpl in H1, H2. rewrite (IH f2) by lia. reflexivity.
Qed.

Lemma DecodeRune_width s :
  s <> [] -> (1 <= snd (DecodeRune s) <= List.length s)%nat.
Proof.
  intros Hne. destruct s as [|b0 t]; [congruence|]. clear Hne.
  unfold DecodeRune.
  destruct (code b0 <? 128); [simpl; lia|].
  destruct (firstInfo b0) as [[[sz lo] hi]|]; [|simpl; lia].
  destruct (List.length (b0 :: t) <? sz)%nat; [simpl; lia|].
  destruct t as [|b1 t1]; [simpl; lia|].
  destruct (negb (in_range lo hi b1)); [simpl; lia|].
  destruct (sz <=? 2)%nat; [simpl; lia|].
  destruct t1 as [|b2 t2]; [simpl; lia|].
  destruct (negb (isCont b2)); [simpl; lia|].
  destruct (sz <=? 3)%nat; [simpl; lia|].
  destruct t2 as [|b3 t3]; [simpl; lia|].
  destruct (negb (isCont b3)); simpl; lia.
Qed.

(** The loop over the runes never runs out of fuel either. *)
Lemma runesFrom_fuel : forall fuel1 fuel2 s,
  (List.length s <= fuel1)%nat -> (List.length s <= fuel2)%nat ->
  runesFrom fuel1 s = runesFrom fuel2 s.
Proof.
  induction fuel1 as [|f1 IH]; intros fuel2 s H1 H2.
  - destruct s; simpl in H1; [|lia]. destruct fuel2; reflexivity.
  - destruct s as [|c rest]; [destruct fuel2; reflexivity|].
    destruct fuel2 as [|f2]; [simpl in H2; lia|].
    cbn [runesFrom].
    pose proof (DecodeRune_width (c :: rest) ltac:(discriminate)) as Hw.
    destruct (DecodeRune (c :: rest)) as [r w]. cbn [snd] in Hw.
    f_equal. apply IH; rewrite length_skipn; lia.
Qed.

(** ** The round trip through the standard encoding *)

Lemma lor_disjoint q n b :
  0 <= n -> 0 <= b < 2 ^ n -> Z.lor (q * 2 ^ n) b = q * 2 ^ n + b.
Proof.
  intros Hn Hb.
  assert (Hland : Z.land (q * 2 ^ n) b = 0).
  { apply Z.bits_inj'. intros m Hm. rewrite Z.land_spec, Z.bits_0.
    destruct (Z.lt_ge_cases m n) as [Hlt | Hge].
    - rewrite Z.mul_pow2_bits_low by exact Hlt. reflexivity.
    - rewrite <- (Z.mod_small b (2 ^ n)) by exact Hb.
      rewrite Z.mod_pow2_bits_high by lia. apply andb_false_r. }
  rewrite <- Z.lxor_lor by exact Hland.
  symmetry. apply Z.add_nocarry_lxor. exact Hland.
Qed.

Lemma six_div val k : 0 <= k -> six val k = (val / 2 ^ k) mod 64.
Proof.
  intros Hk. unfold six. rewrite Z.shiftr_div_pow2 by exact Hk.
  change 63 with (Z.ones 6). rewrite Z.land_ones by lia. reflexivity.
Qed.

Lemma six_range val k : 0 <= k -> 0 <= six val k < 64.
Proof. intros Hk. rewrite six_div by exact Hk. apply Z.mod_pos_bound. lia. Qed.

Lemma byte_of_Z_eq v b : v mod 256 = code b -> byte_of_Z v = b.
Proof.
  intros H. unfold byte_of_Z. rewrite H. destruct b; reflexivity.
Qed.

Lemma lor_low x q m n b :
  m = 2 ^ n -> 0 <= n -> x = q * m -> 0 <= b < m -> Z.lor x b = x + b.
Proof. intros -> Hn -> Hb. apply lor_disjoint; assumption. Qed.

(** The value the encoder forms from three bytes. *)
Lemma group3_value a b c :
  Z.lor (Z.lor (Z.shiftl (code a) 16) (Z.shiftl (code b) 8)) (code c)
  = code a * 65536 + code b * 256 + code c.
Proof.
  pose proof (code_range a). pose proof (code_range b).
  pose proof (code_range c).
  rewrite !Z.shiftl_mul_pow2 by lia.
  change (2 ^ 16) with 65536. change (2 ^ 8) with 256.
  rewrite (lor_low (code a * 65536) (code a) 65536 16 (code b * 256));
    [|reflexivity|lia|reflexivity|lia].
  rewrite (lor_low _ (code a * 256 + code b) 256 8 (code c));
    [reflexivity|reflexivity|lia|ring|lia].
Qed.

Lemma group2_value a b :
  Z.lor (Z.shiftl (code a) 16) (Z.shiftl (code b) 8)
  = code a * 65536 + code b * 256.
Proof.
  pose proof (code_range a). pose proof (code_range b).
  rewrite !Z.shiftl_mul_pow2 by lia.
  change (2 ^ 16) with 65536. change (2 ^ 8) with 256.
  rewrite (lor_low (code a * 65536) (code a) 65536 16 (code b * 256));
    [reflexivity|reflexivity|lia|reflexivity|lia].
Qed.

(** The value the decoder forms from four 6-bit groups. *)
Lemma quantum_value d0 d1 d2 d3 :
  0 <= d0 < 64 -> 0 <= d1 < 64 -> 0 <= d2 < 64 -> 0 <= d3 < 64 ->
  Z.lor (Z.lor (Z.lor (Z.shiftl d0 18) (Z.shiftl d1 12)) (Z.shiftl d2 6)) d3
  = d0 * 262144 + d1 * 4096 + d2 * 64 + d3.
Proof.
  intros H0 H1 H2 H3. rewrite !Z.shiftl_mul_pow2 by lia.
  change (2 ^ 18) with 262144. change (2 ^ 12) with 4096.
  change (2 ^ 6) with 64.
  rewrite (lor_low (d0 * 262144) d0 262144 18 (d1 * 4096));
    [|reflexivity|lia|reflexivity|lia].
  rewrite (lor_low _ (d0 * 64 + d1) 4096 12 (d2 * 64));
    [|reflexivity|lia|ring|lia].
  rewrite (lor_low _ ((d0 * 64 + d1) * 64 + d2) 64 6 d3);
    [reflexivity|reflexivity|lia|ring|lia].
Qed.

(** Three bytes, cut into 6-bit groups and put together again. *)
Lemma quantumBytes_group3 enc a b c :
  let val := Z.lor (Z.lor (Z.shiftl (code a) 16) (Z.shiftl (code b) 8))
                   (code c) in
  quantumBytes enc (six val 18) (six val 12) (six val 6) (six val 0) 4
  = Some [a; b; c].
Proof.
  cbn zeta. rewrite group3_value.
  pose proof (code_range a) as Ha. pose proof (code_range b) as Hb.
  pose proof (code_range c) as Hc.
  set (val := code a * 65536 + code b * 256 + code c).
  unfold quantumBytes.
  rewrite quantum_value by (apply six_range; lia).
  rewrite !six_div by lia. rewrite !Z.shiftr_div_pow2 by lia.
  change (2 ^ 18) with 262144. change (2 ^ 12) with 4096.
  change (2 ^ 6) with 64. change (2 ^ 0) with 1.
  change (2 ^ 16) with 65536. change (2 ^ 8) with 256.
  assert (Hval : (val / 262144) mod 64 * 262144 + (val / 4096) mod 64 * 4096
                 + (val / 64) mod 64 * 64 + (val / 1) mod 64 = val).
  { subst val. Z.div_mod_to_equations. lia. }
  rewrite Hval. f_equal.
  f_equal; [|f_equal; [|f_equal]]; apply byte_of_Z_eq; subst val;
    Z.div_mod_to_equations; lia.
Qed.

Lemma quantumBytes_group2 a b :
  let val := Z.lor (Z.shiftl (code a) 16) (Z.shiftl (code b) 8) in
  quantumBytes StdEncoding (six val 18) (six val 12) (six val 6) 0 3
  = Some [a; b].
Proof.
  cbn zeta. rewrite group2_value.
  pose proof (code_range a) as Ha. pose proof (code_range b) as Hb.
  set (val := code a * 65536 + code b * 256).
  unfold quantumBytes. cbn [strict StdEncoding andb].
  rewrite quantum_value by (try apply six_range; lia).
  rewrite !six_div by lia. rewrite !Z.shiftr_div_pow2 by lia.
  change (2 ^ 18) with 262144. change (2 ^ 12) with 4096.
  change (2 ^ 6) with 64. change (2 ^ 0) with 1.
  change (2 ^ 16) with 65536. change (2 ^ 8) with 256.
  assert (Hval : (val / 262144) mod 64 * 262144 + (val / 4096) mod 64 * 4096
                 + (val / 64) mod 64 * 64 + 0 = val).
  { subst val. Z.div_mod_to_equations. lia. }
  rewrite Hval. f_equal.
  f_equal; [|f_equal]; apply byte_of_Z_eq; subst val;
    Z.div_mod_to_equations; lia.
Qed.

Lemma quantumBytes_group1 a :
  let val := Z.shiftl (code a) 16 in
  quantumBytes StdEncoding (six val 18) (six val 12) 0 0 2 = Some [a].
Proof.
  cbn zeta. pose proof (code_range a) as Ha.
  rewrite Z.shiftl_mul_pow2 by lia. change (2 ^ 16) with 65536.
  set (val := code a * 65536).
  unfold quantumBytes. cbn [strict StdEncoding andb].
  rewrite quantum_value by (try apply six_range; lia).
  rewrite !six_div by lia. rewrite !Z.shiftr_div_pow2 by lia.
  change (2 ^ 18) with 262144. change (2 ^ 12) with 4096.
  change (2 ^ 16) with 65536.
  assert (Hval : (val / 262144) mod 64 * 262144 + (val / 4096) mod 64 * 4096
                 + 0 * 64 + 0 = val).
  { subst val. Z.div_mod_to_equations. lia. }
  rewrite Hval. f_equal.
  f_equal; apply byte_of_Z_eq; subst val; Z.div_mod_to_equations; lia.
Qed.

Lemma encodeChar_spec v :
  0 <= v < 64 ->
  stdClass (encodeChar v) = true
  /\ decodeMap StdEncoding (encodeChar v) = v.
Proof.
  intros Hv.
  assert (Hall : forallb
            (fun n => let v := Z.of_nat n in
               stdClass (encodeChar v)
               && (decodeMap StdEncoding (encodeChar v) =? v))
            (seq 0 64) = true) by (vm_compute; reflexivity).
  rewrite forallb_forall in Hall.
  specialize (Hall (Z.to_nat v)). cbn zeta in Hall.
  rewrite Z2Nat.id in Hall by lia.
  assert (Hin : In (Z.to_nat v) (seq 0 64)) by (apply in_seq; lia).
  apply Hall in Hin. apply andb_true_iff in Hin as [H1 H2].
  apply Z.eqb_eq in H2. auto.
Qed.

Lemma sextet_class val k : 0 <= k -> stdClass (sextet val k) = true.
Proof. intros Hk. apply encodeChar_spec, (six_range val k Hk). Qed.

Lemma sextet_decode val k :
  0 <= k -> decodeMap StdEncoding (sextet val k) = six val k.
Proof. intros Hk. apply encodeChar_spec, (six_range val k Hk). Qed.

Lemma sextet_plain val k : 0 <= k -> plainFor StdEncoding (sextet val k).
Proof.
  intros Hk. apply (class_plain StdPadded). left. now apply sextet_class.
Qed.

Lemma sextet_step val k j dbuf rest :
  0 <= k ->
  decodeQuantumFrom StdEncoding j dbuf (sextet val k :: rest) =
  match j with
  | 3%nat => finishQuantum StdEncoding (dbuf ++ [six val k]) 4 rest None
  | _ => decodeQuantumFrom StdEncoding (S j) (dbuf ++ [six val k]) rest
  end.
Proof.
  intros Hk. rewrite decodeQuantumFrom_plain by now apply sextet_plain.
  rewrite sextet_decode by exact Hk.
  pose proof (six_range val k Hk).
  destruct (Z.eqb_spec (six val k) 255); [lia | reflexivity].
Qed.

(** One quantum of an encoded text. *)
Lemma decodeQuantum_group3 a b c rest :
  let val := Z.lor (Z.lor (Z.shiftl (code a) 16) (Z.shiftl (code b) 8))
                   (code c) in
  decodeQuantum StdEncoding
    (sextet val 18 :: sextet val 12 :: sextet val 6 :: sextet val 0 :: rest)
  = mkQuantum rest [a; b; c] None.
Proof.
  cbn zeta. unfold decodeQuantum. rewrite !sextet_step by lia.
  unfold finishQuantum. cbn [app nth_d nth].
  rewrite quantumBytes_group3. reflexivity.
Qed.

Lemma decodeQuantum_group2 a b :
  let val := Z.lor (Z.shiftl (code a) 16) (Z.shiftl (code b) 8) in
  decodeQuantum StdEncoding
    [sextet val 18; sextet val 12; sextet val 6; StdPadding]
  = mkQuantum [] [a; b] None.
Proof.
  cbn zeta. unfold decodeQuantum. rewrite !sextet_step by lia.
  cbn [decodeQuantumFrom app]. 
  change (decodeMap StdEncoding StdPadding) with 255.
  cbn [Z.eqb Pos.eqb negb]. 
  change (isNewline StdPadding) with false.
  change (isPadOf StdEncoding StdPadding) with true. cbn [negb].
  unfold afterPadding. cbn [skipNewlines].
  unfold finishQuantum. cbn [nth_d nth].
  rewrite quantumBytes_group2. reflexivity.
Qed.

Lemma decodeQuantum_group1 a :
  let val := Z.shiftl (code a) 16 in
  decodeQuantum StdEncoding
    [sextet val 18; sextet val 12; StdPadding; StdPadding]
  = mkQuantum [] [a] None.
Proof.
  cbn zeta. unfold decodeQuantum. rewrite !sextet_step by lia.
  cbn [decodeQuantumFrom app].
  change (decodeMap StdEncoding StdPadding) with 255.
  cbn [Z.eqb Pos.eqb negb].
  change (isNewline StdPadding) with false.
  change (isPadOf StdEncoding StdPadding) with true. cbn [negb].
  unfold afterPadding. cbn [skipNewlines].
  change (isNewline StdPadding) with false. cbn iota.
  change (isPadOf StdEncoding StdPadding) with true. cbn iota.
  cbn [skipNewlines].
  unfold finishQuantum. cbn [nth_d nth].
  rewrite quantumBytes_group1. reflexivity.
Qed.

(** Induction over a list three elements at a time. *)
Lemma list_ind3 {A} (Q : list A -> Prop) :
  Q [] -> (forall a, Q [a]) -> (forall a b, Q [a; b]) ->
  (forall a b c l, Q l -> Q (a :: b :: c :: l)) ->
  forall l, Q l.
Proof.
  intros H0 H1 H2 H3.
  assert (H : forall l, Q l /\ (forall a, Q (a :: l))
                        /\ (forall a b, Q (a :: b :: l))).
  { induction l as [|x l (IH0 & IH1 & IH2)]; [auto|].
    repeat split; auto. }
  intros l. apply H.
Qed.

Lemma DecodeFrom_EncodeStd src : forall fuel,
  (List.length (EncodeStd src) <= fuel)%nat ->
  DecodeFrom StdEncoding fuel (EncodeStd src) = (src, None).
Proof.
  induction src as [| a | a b | a b c src IH] using list_ind3;
    intros fuel Hf.
  - destruct fuel; reflexivity.
  - destruct fuel as [|f]; [simpl in Hf; lia|].
    cbn [EncodeStd]. rewrite DecodeFrom_cons, decodeQuantum_group1.
    cbn [q_err q_out q_rest]. destruct f; reflexivity.
  - destruct fuel as [|f]; [simpl in Hf; lia|].
    cbn [EncodeStd]. rewrite DecodeFrom_cons, decodeQuantum_group2.
    cbn [q_err q_out q_rest]. destruct f; reflexivity.
  - destruct fuel as [|f]; [simpl in Hf; lia|].
    cbn [EncodeStd app]. rewrite DecodeFrom_cons, decodeQuantum_group3.
    cbn [q_err q_out q_rest].
    rewrite IH by (cbn [EncodeStd app List.length] in Hf; lia).
    reflexivity.
Qed.

(** Decoding an encoded text with the standard padded variant gives the
    text back. *)
Lemma DecodeString_EncodeStd src :
  DecodeString StdEncoding (EncodeStd src) = (src, None).
Proof. apply DecodeFrom_EncodeStd. lia. Qed.

(** The shape of an encoded text. *)
Lemma EncodeStd_shape src :
  exists run pad,
    EncodeStd src = run ++ pad
    /\ forallb stdClass run = true /\ forallb isPad pad = true
    /\ (List.length pad <= 2)%nat
    /\ Z.of_nat (List.length run) mod 4 <> 1
    /\ (List.length src <= List.length run)%nat
    /\ ((3 <= List.length src)%nat -> (4 <= List.length run)%nat).
Proof.
  induction src as [| a | a b | a b c src IH] using list_ind3.
  - exists [], []. simpl. repeat split; auto; try lia. discriminate.
  - eexists [_; _], [StdPadding; StdPadding]. cbn [EncodeStd app].
    split; [reflexivity|]. cbn [forallb]. rewrite !sextet_class by lia.
    repeat split; simpl; try lia. discriminate.
  - eexists [_; _; _], [StdPadding]. cbn [EncodeStd app].
    split; [reflexivity|]. cbn [forallb]. rewrite !sextet_class by lia.
    repeat split; simpl; try lia. discriminate.
  - destruct IH as (run & pad & E & Hrun & Hpad & Hp & Hmod & Hle & _).
    eexists (_ :: _ :: _ :: _ :: run), pad. cbn [EncodeStd app].
    rewrite E. split; [reflexivity|]. cbn [forallb].
    rewrite !sextet_class by lia. cbn [andb List.length].
    repeat split; auto; try lia.
    rewrite !Nat2Z.inj_succ.
    replace (Z.succ (Z.succ (Z.succ (Z.succ (Z.of_nat (List.length run))))))
      with (Z.of_nat (List.length run) + 1 * 4) by lia.
    rewrite Z.mod_add by lia. exact Hmod.
Qed.

Lemma EncodeStd_candidate src :
  3 <= len src ->
  matchesInFull stdClass (EncodeStd src)
  /\ admissible defaultConfig (EncodeStd src) = true.
Proof.
  intros H3. unfold len in H3.
  destruct (EncodeStd_shape src)
    as (run & pad & E & Hrun & Hpad & Hp & Hmod & Hle & H4).
  specialize (H4 ltac:(lia)). split.
  - exists run, pad. auto.
  - unfold admissible. apply andb_true_iff. split.
    + apply Z.leb_le. rewrite E. unfold len. rewrite length_app.
      change (minLength defaultConfig) with 4. lia.
    + apply isValidBase64Length_not1. unfold strippedLength.
      rewrite E, (TrimRightPad_match stdClass) by
        (auto using stdClass_padFree).
      exact Hmod.
Qed.

(** ** The scanner on a single line *)

Lemma dropCR_noCR line :
  Forall (fun b => code b <> 13) line -> dropCR line = line.
Proof.
  intros H. unfold dropCR. destruct (rev line) as [|c r] eqn:E; [reflexivity|].
  assert (Hin : In c line) by (apply in_rev; rewrite E; left; reflexivity).
  rewrite Forall_forall in H. specialize (H c Hin).
  unfold is_byte. destruct (Z.eqb_spec (code c) 13); [contradiction|].
  reflexivity.
Qed.

Lemma scanFrom_line fault data : forall cur n,
  n = len cur -> Forall (fun b => code b <> 10) data ->
  n + len data < chunkSize ->
  scanFrom fault cur n data =
  (match rev cur ++ data with
   | [] => []
   | _ :: _ => [dropCR (rev cur ++ data)]
   end, fault).
Proof.
  unfold len.
  induction data as [|c data IH]; intros cur n Hn Hd Hlen.
  - cbn [scanFrom]. rewrite app_nil_r. destruct cur as [|x cur]; [reflexivity|].
    destruct (rev (x :: cur)) eqn:E; [|reflexivity].
    apply (f_equal (@List.length byte)) in E. rewrite length_rev in E.
    discriminate.
  - cbn [scanFrom]. inversion Hd as [|? ? Hc Hd']; subst.
    unfold is_byte at 1. destruct (Z.eqb_spec (code c) 10); [contradiction|].
    cbn [List.length] in Hlen.
    destruct (Z.leb_spec chunkSize (Z.of_nat (List.length cur) + 1)); [lia|].
    rewrite IH; auto.
    + cbn [rev]. rewrite <- app_assoc. cbn [app].
      destruct (rev cur ++ c :: data) eqn:E; [|reflexivity].
      apply (f_equal (@List.length byte)) in E. rewrite length_app in E.
      simpl in E. lia.
    + cbn [List.length]. lia.
    + cbn [List.length]. lia.
Qed.

Lemma scanLines_line line :
  line <> [] -> noLineEnd line -> fitsBuffer line ->
  scanLines (fileOf line) = ([line], None).
Proof.
  intros Hne Hno Hfit. unfold scanLines, fileOf. cbn [fault content].
  rewrite (scanFrom_line None line [] 0).
  - cbn [rev app]. destruct line; [congruence|].
    rewrite dropCR_noCR; [reflexivity|].
    eapply Forall_impl; [|exact Hno]. simpl. tauto.
  - reflexivity.
  - eapply Forall_impl; [|exact Hno]. simpl. tauto.
  - unfold fitsBuffer in Hfit. lia.
Qed.

Lemma noLineEnd_app a b : noLineEnd a -> noLineEnd b -> noLineEnd (a ++ b).
Proof. unfold noLineEnd. intros. apply Forall_app. auto. Qed.

Lemma stdClass_noLineEnd s : forallb stdClass s = true -> noLineEnd s.
Proof.
  intros H. unfold noLineEnd. rewrite Forall_forall. intros c Hin.
  pose proof (forallb_In _ _ _ H Hin) as Hc.
  destruct c; vm_compute in Hc; try discriminate; vm_compute;
    split; discriminate.
Qed.

Lemma isPad_noLineEnd s : forallb isPad s = true -> noLineEnd s.
Proof.
  intros H. unfold noLineEnd. rewrite Forall_forall. intros c Hin.
  pose proof (forallb_In _ _ _ H Hin) as Hc.
  destruct c; vm_compute in Hc; try discriminate; vm_compute;
    split; discriminate.
Qed.

(** ** The run on a single line *)

Lemma findAndDecodeLines_single P config line :
  Z.of_nat (List.length (findBase64Patterns config line)) <= maxMatches ->
  stdout (fst (findAndDecodeLines P config [line] None))
  = List.concat (map (outputOf P config 1) (findBase64Patterns config line)).
Proof.
  intros Hle. unfold findAndDecodeLines. cbn [scanLoop].
  rewrite rangeMatches_eq.
  set (st1 := setLineNum initState (lineNum initState + 1)).
  assert (Hroom : room st1 = Z.to_nat maxMatches) by apply room_init.
  rewrite Hroom.
  destruct (Nat.leb_spec (List.length (findBase64Patterns config line))
              (Z.to_nat maxMatches)) as [_ | Hgt]; [|lia].
  cbn iota.
  destruct (afterLoop_fields config None
              (processAll P config (findBase64Patterns config line) st1))
    as (_ & _ & _ & ->).
  destruct (processAll_fields P config (findBase64Patterns config line) st1)
    as (_ & _ & _ & ->).
  reflexivity.
Qed.

Lemma printableASCII_forallb s :
  forallb (fun b => (32 <=? code b) && (code b <=? 126)) s = true ->
  printableASCII s.
Proof.
  intros H. unfold printableASCII. rewrite Forall_forall. intros b Hb.
  pose proof (forallb_In _ _ _ H Hb) as Hc. cbn beta in Hc.
  apply andb_true_iff in Hc as [H1 H2].
  apply Z.leb_le in H1, H2. lia.
Qed.

Lemma noLineEnd_forallb s :
  forallb (fun b => negb (is_byte 10 b) && negb (is_byte 13 b)) s = true ->
  noLineEnd s.
Proof.
  intros H. unfold noLineEnd. rewrite Forall_forall. intros b Hb.
  pose proof (forallb_In _ _ _ H Hb) as Hc. cbn beta in Hc.
  apply andb_true_iff in Hc as [H1 H2]. unfold is_byte in *.
  destruct (Z.eqb_spec (code b) 10); [discriminate|].
  destruct (Z.eqb_spec (code b) 13); [discriminate|]. auto.
Qed.

(** ** The candidate finder on an embedded match *)

(** C7 (refuted as stated): the string [AAAA] matches the pattern in
    full, its stripped length is 0 modulo 4 and it is as long as
    [minLength]; the line [AAAAAAAA] contains it, but the pattern takes
    the whole run, and the only candidate is [AAAAAAAA]. *)
Lemma finder_takes_the_whole_run :
  matchesInFull stdClass (B "AAAA")
  /\ strippedLength (B "AAAA") mod 4 = 0
  /\ minLength defaultConfig <= len (B "AAAA")
  /\ findBase64Patterns defaultConfig (B "AAAA" ++ B "AAAA" ++ [])
     = [B "AAAAAAAA"]
  /\ ~ In (B "AAAA")
         (findBase64Patterns defaultConfig (B "AAAA" ++ B "AAAA" ++ [])).
Proof.
  split; [|split; [|split; [|split]]].
  - exists (B "AAAA"), []. repeat split; simpl; auto.
  - reflexivity.
  - vm_compute. discriminate.
  - vm_compute. reflexivity.
  - vm_compute. intros [H | []]. discriminate H.
Qed.

(** C7 (amended): a string that matches the standard pattern in full,
    whose stripped length is 0, 2 or 3 modulo 4 and whose length is at
    least [minLength], is emitted as a candidate for every line in which
    it occurs delimited: not preceded by an alphabet character, and not
    followed by a character the pattern would still take (an alphabet
    character when it has no ['='], a ['='] when it has fewer than
    two). *)
Theorem finder_emits_delimited_match :
  forall (config : Config) (s pre post : gostring),
    matchesInFull stdClass s ->
    strippedLength s mod 4 = 0 \/ strippedLength s mod 4 = 2
    \/ strippedLength s mod 4 = 3 ->
    config.(minLength) <= len s ->
    delimited stdClass pre s post ->
    In s (findBase64Patterns config (pre ++ s ++ post)).
Proof.
  intros config s pre post Hs Hmod Hmin Hd.
  apply findBase64Patterns_In. split.
  - unfold admissible. apply andb_true_iff. split.
    + now apply Z.leb_le.
    + now apply isValidBase64Length_spec.
  - left. apply (FindAllString_delimited_aux stdClass stdClass_padFree
                   (List.length pre)); auto.
Qed.

Lemma finder_emits_delimited_match_witness :
  In (B "aGVsbG8gd29ybGQ=")
     (findBase64Patterns defaultConfig
        (B "user=" ++ B "aGVsbG8gd29ybGQ=" ++ B "&id=5")).
Proof.
  apply finder_emits_delimited_match.
  - exists (B "aGVsbG8gd29ybGQ"), (B "="). repeat split; simpl; auto.
    lia.
  - right. right. reflexivity.
  - vm_compute. discriminate.
  - split; [vm_compute; reflexivity|].
    split; intros _; vm_compute; reflexivity.
Defined.

(** ** The round trip *)

Lemma decodeBase64_EncodeStd config s :
  decodeBase64 config (EncodeStd s) = (s, None).
Proof. unfold decodeBase64. rewrite DecodeString_EncodeStd. reflexivity. Qed.

Lemma outputOf_EncodeStd P s :
  s <> [] -> printableASCII s ->
  outputOf P defaultConfig 1 (EncodeStd s) = s ++ newline.
Proof.
  intros Hne Hp. unfold outputOf.
  rewrite decodeBase64_EncodeStd, isValidOutput_printableASCII by assumption.
  reflexivity.
Qed.

(** C8 (refuted as stated): the printable string [a] is encoded as
    [YQ==], which has two alphabet characters only; the pattern asks for
    four, the line has no candidate and the run prints nothing. *)
Lemma roundtrip_fails_below_three_bytes :
  printableASCII (B "a")
  /\ EncodeStd (B "a") = B "YQ=="
  /\ findBase64Patterns defaultConfig (EncodeStd (B "a")) = []
  /\ stdout (fst (findAndDecode (fun _ => true) defaultConfig
                    (fileOf (EncodeStd (B "a"))))) = [].
Proof.
  split; [|split; [|split]]; try (vm_compute; reflexivity).
  apply printableASCII_forallb. reflexivity.
Qed.

(** ** The lines of standard output *)

Lemma splitLinesFrom_line s : forall cur rest,
  Forall (fun b => code b <> 10) s ->
  splitLinesFrom cur (s ++ x0a :: rest)
  = (rev cur ++ s) :: splitLinesFrom [] rest.
Proof.
  induction s as [|c s IH]; intros cur rest Hs.
  - cbn [app splitLinesFrom]. change (is_byte 10 x0a) with true.
    now rewrite app_nil_r.
  - inversion Hs as [|? ? Hc Hs']; subst. cbn [app splitLinesFrom].
    unfold is_byte at 1. destruct (Z.eqb_spec (code c) 10); [contradiction|].
    rewrite IH by exact Hs'. cbn [rev]. now rewrite <- app_assoc.
Qed.

Lemma splitLinesFrom_after b : forall cur rest x,
  In x (splitLinesFrom [] rest) ->
  In x (splitLinesFrom cur (b ++ x0a :: rest)).
Proof.
  induction b as [|c b IH]; intros cur rest x Hx.
  - cbn [app splitLinesFrom]. change (is_byte 10 x0a) with true.
    right. exact Hx.
  - cbn [app splitLinesFrom]. destruct (is_byte 10 c).
    + right. now apply IH.
    + now apply IH.
Qed.

(** A string without newline that is written, with a newline after it,
    at the start of the output or behind a newline is one of the lines
    of the output. *)
Lemma line_of_output before s after :
  endsLine before -> Forall (fun b => code b <> 10) s ->
  In s (outputLines (before ++ (s ++ newline) ++ after)).
Proof.
  intros [-> | [t ->]] Hs; unfold outputLines, newline.
  - cbn [app]. rewrite <- app_assoc. cbn [app].
    rewrite splitLinesFrom_line by exact Hs. left. reflexivity.
  - rewrite <- !app_assoc. cbn [app]. apply splitLinesFrom_after.
    rewrite splitLinesFrom_line by exact Hs. left. reflexivity.
Qed.

Lemma endsLine_app a b : endsLine a -> endsLine b -> endsLine (a ++ b).
Proof.
  intros Ha [-> | [t ->]].
  - now rewrite app_nil_r.
  - right. exists (a ++ t). now rewrite app_assoc.
Qed.

Lemma outputOf_endsLine P config n m : endsLine (outputOf P config n m).
Proof.
  unfold outputOf. destruct (decodeBase64 config m) as [decoded [e|]];
    [left; reflexivity|].
  destruct (isValidOutput P decoded); [|left; reflexivity].
  destruct (showOffset config); right.
  - unfold msgOffset. eexists. rewrite !app_assoc. reflexivity.
  - eexists. reflexivity.
Qed.

Lemma outputs_endLine P config n ms :
  endsLine (List.concat (map (outputOf P config n) ms)).
Proof.
  induction ms as [|m ms IH]; [left; reflexivity|].
  cbn [map List.concat]. apply endsLine_app; [apply outputOf_endsLine|exact IH].
Qed.

Lemma printableASCII_noLF s :
  printableASCII s -> Forall (fun b => code b <> 10) s.
Proof.
  intros H. eapply Forall_impl; [|exact H]. simpl. intros. lia.
Qed.

(** C8 (amended): for a printable ASCII string of at least three bytes,
    the standard padded encoding, put in a line in which it is delimited,
    which has no line-end characters, fits the buffer and holds no more
    candidates than the match limit, is found, decoded and printed by the
    run under the default configuration: standard output is the outputs
    for the candidates found before it (each empty or ended by a
    newline), then the original string and a newline, then the outputs
    for the candidates found after it; so the original string is one of
    the lines of standard output. *)
Theorem roundtrip_printable_ascii :
  forall (PrintRanges : Z -> bool) (s pre post : gostring),
    printableASCII s ->
    3 <= len s ->
    delimited stdClass pre (EncodeStd s) post ->
    noLineEnd pre -> noLineEnd post ->
    fitsBuffer (pre ++ EncodeStd s ++ post) ->
    Z.of_nat (List.length
                (findBase64Patterns defaultConfig
                   (pre ++ EncodeStd s ++ post))) <= maxMatches ->
    decodeBase64 defaultConfig (EncodeStd s) = (s, None)
    /\ (exists before after,
          findBase64Patterns defaultConfig (pre ++ EncodeStd s ++ post)
          = before ++ EncodeStd s :: after
          /\ stdout (fst (findAndDecode PrintRanges defaultConfig
                            (fileOf (pre ++ EncodeStd s ++ post))))
             = List.concat (map (outputOf PrintRanges defaultConfig 1) before)
               ++ (s ++ newline)
               ++ List.concat
                    (map (outputOf PrintRanges defaultConfig 1) after)
          /\ endsLine (List.concat
                         (map (outputOf PrintRanges defaultConfig 1) before)))
    /\ In s (outputLines
               (stdout (fst (findAndDecode PrintRanges defaultConfig
                               (fileOf (pre ++ EncodeStd s ++ post)))))).
Proof.
  intros P s pre post Hp H3 Hd Hpre Hpost Hfit Hcount.
  destruct (EncodeStd_candidate s H3) as [Hfull Hadm].
  assert (Hin : In (EncodeStd s)
                   (findBase64Patterns defaultConfig
                      (pre ++ EncodeStd s ++ post))).
  { apply findBase64Patterns_In. split; [exact Hadm|]. left.
    apply (FindAllString_delimited_aux stdClass stdClass_padFree
             (List.length pre)); auto. }
  assert (Hne : s <> []) by (intros ->; unfold len in H3; simpl in H3; lia).
  assert (Henc : noLineEnd (EncodeStd s)).
  { destruct (EncodeStd_shape s) as (run & pad & -> & Hrun & Hpad & _).
    apply noLineEnd_app; [now apply stdClass_noLineEnd
                         | now apply isPad_noLineEnd]. }
  assert (Hscan : scanLines (fileOf (pre ++ EncodeStd s ++ post))
                  = ([pre ++ EncodeStd s ++ post], None)).
  { apply scanLines_line; auto.
    - intros E. apply (f_equal (@List.length byte)) in E.
      rewrite !length_app in E.
      destruct Hfull as (run & pad & Er & Hn & _).
      rewrite Er, length_app in E. simpl in E. lia.
    - repeat apply noLineEnd_app; assumption. }
  assert (Hout : exists before after,
            findBase64Patterns defaultConfig (pre ++ EncodeStd s ++ post)
            = before ++ EncodeStd s :: after
            /\ stdout (fst (findAndDecode P defaultConfig
                              (fileOf (pre ++ EncodeStd s ++ post))))
               = List.concat (map (outputOf P defaultConfig 1) before)
                 ++ (s ++ newline)
                 ++ List.concat (map (outputOf P defaultConfig 1) after)
            /\ endsLine (List.concat
                           (map (outputOf P defaultConfig 1) before))).
  { unfold findAndDecode. rewrite Hscan.
    rewrite findAndDecodeLines_single by exact Hcount.
    apply in_split in Hin as (l1 & l2 & E). exists l1, l2.
    split; [exact E|]. split; [|apply outputs_endLine].
    rewrite E, map_app, concat_app. cbn [map List.concat].
    rewrite outputOf_EncodeStd by assumption. reflexivity. }
  split; [apply decodeBase64_EncodeStd|]. split; [exact Hout|].
  destruct Hout as (before & after & _ & -> & Hends).
  apply line_of_output; [exact Hends | now apply printableASCII_noLF].
Qed.

Lemma roundtrip_printable_ascii_witness :
  In (B "hello world")
     (outputLines
        (stdout (fst (findAndDecode (fun _ => true) defaultConfig
                        (fileOf (B "user=" ++ EncodeStd (B "hello world")
                                 ++ B "&id=5")))))).
Proof.
  refine (proj2 (proj2 (roundtrip_printable_ascii (fun _ => true)
            (B "hello world") (B "user=") (B "&id=5") _ _ _ _ _ _ _))).
  - apply printableASCII_forallb. vm_compute. reflexivity.
  - vm_compute. discriminate.
  - split; [vm_compute; reflexivity|].
    split; intros _; vm_compute; reflexivity.
  - apply noLineEnd_forallb. vm_compute. reflexivity.
  - apply noLineEnd_forallb. vm_compute. reflexivity.
  - vm_compute. reflexivity.
  - vm_compute. discriminate.
Defined.

(** An encoding that follows an alphabet character is taken with it: the
    candidate is the longer run, which does not decode. *)
Example roundtrip_needs_delimiter :
  findBase64Patterns defaultConfig (B "x" ++ EncodeStd (B "hello world"))
  = [B "xaGVsbG8gd29ybGQ="]
  /\ stdout (fst (findAndDecode (fun _ => true) defaultConfig
                    (fileOf (B "x" ++ EncodeStd (B "hello world"))))) = [].
Proof. vm_compute. split; reflexivity. Qed.

Lemma findBase64Patterns_bare config s :
  matchesInFull stdClass s -> admissible config s = true ->
  config.(urlSafe) = false ->
  findBase64Patterns config s = [s].
Proof.
  intros Hs Hadm Hurl.
  assert (Hfind : FindAllString stdClass s = [s]).
  { pose proof Hs as (run & pad & E & Hn & Hrun & Hpad & Hp).
    assert (Hm : matchAt stdClass (run ++ pad ++ []) = Some (run ++ pad, []))
      by (apply matchAt_eq; simpl; auto using stdClass_padFree).
    rewrite app_nil_r in Hm. rewrite <- E in Hm.
    destruct s as [|c s]; [destruct run; simpl in *; [lia|discriminate]|].
    rewrite FindAllString_cons, Hm. reflexivity. }
  unfold findBase64Patterns, stdB64Pattern. rewrite Hfind, Hurl.
  cbn [fold_left collectMatch]. unfold admissible in Hadm. rewrite Hadm.
  reflexivity.
Qed.

(** The round trip on a line that holds the encoding and nothing else:
    standard output is the original string and a newline. *)
Lemma roundtrip_bare_line P s :
  printableASCII s -> 3 <= len s -> fitsBuffer (EncodeStd s) ->
  stdout (fst (findAndDecode P defaultConfig (fileOf (EncodeStd s))))
  = s ++ newline.
Proof.
  intros Hp H3 Hfit.
  destruct (EncodeStd_candidate s H3) as [Hfull Hadm].
  assert (Hne : s <> []) by (intros ->; unfold len in H3; simpl in H3; lia).
  assert (Hc : findBase64Patterns defaultConfig (EncodeStd s) = [EncodeStd s])
    by (apply findBase64Patterns_bare; auto).
  unfold findAndDecode. rewrite scanLines_line; auto.
  - rewrite findAndDecodeLines_single by (rewrite Hc; simpl; unfold maxMatches; lia).
    rewrite Hc. cbn [map List.concat].
    rewrite outputOf_EncodeStd by assumption. apply app_nil_r.
  - destruct Hfull as (run & pad & -> & Hn & _).
    destruct run; simpl in *; [lia | discriminate].
  - destruct (EncodeStd_shape s) as (run & pad & -> & Hrun & Hpad & _).
    apply noLineEnd_app; [now apply stdClass_noLineEnd
                         | now apply isPad_noLineEnd].
Qed.

(** ** What a run prints and counts *)

Section RunOutput.

Variable P : Z -> bool.
Variable config : Config.

Lemma numberedFrom_length n lines :
  List.length (numberedFrom config n lines)
  = List.length (allCandidates config lines).
Proof.
  revert n. induction lines as [|line lines IH]; intros n; [reflexivity|].
  cbn [numberedFrom]. unfold allCandidates. cbn [map List.concat].
  fold (allCandidates config lines).
  rewrite !length_app, length_map, IH. reflexivity.
Qed.

Lemma processMatch_counts m st :
  totalDecoded (processMatch P config m st)
  = totalDecoded st + (if accepted P config m then 1 else 0)
  /\ (verbose config = false ->
      stderr (processMatch P config m st) = stderr st).
Proof.
  unfold processMatch, accepted.
  destruct (decodeBase64 config m) as [decoded [e|]].
  - destruct (verbose config); simpl;
      (split; [lia | intros Hv; try discriminate Hv; reflexivity]).
  - destruct (isValidOutput P decoded); simpl.
    + destruct (showOffset config), (verbose config); simpl;
        (split; [lia | intros Hv; try discriminate Hv; reflexivity]).
    + split; [lia | reflexivity].
Qed.

Lemma processAll_counts ms : forall st,
  totalDecoded (processAll P config ms st)
  = totalDecoded st
    + Z.of_nat (List.length (filter (accepted P config) ms))
  /\ (verbose config = false ->
      stderr (processAll P config ms st) = stderr st).
Proof.
  induction ms as [|m ms IH]; intros st; cbn [processAll fold_left filter].
  - simpl. split; [lia | auto].
  - destruct (IH (processMatch P config m st)) as [H1 H2].
    destruct (processMatch_counts m st) as [F1 F2].
    unfold processAll in *. rewrite H1, F1. split.
    + destruct (accepted P config m); cbn [List.length];
        rewrite ?Nat2Z.inj_succ; lia.
    + intros Hv. rewrite H2, F2; auto.
Qed.

Lemma atLimit_counts st :
  totalDecoded (atLimit config st) = totalDecoded st
  /\ (verbose config = false -> stderr (atLimit config st) = stderr st).
Proof.
  unfold atLimit. destruct (verbose config); simpl;
    (split; [reflexivity | intros Hv; try discriminate Hv; reflexivity]).
Qed.

Lemma filter_numbered (f : gostring -> bool) (n : Z) ms :
  List.length (filter (fun p => f (snd p)) (map (pair n) ms))
  = List.length (filter f ms).
Proof.
  induction ms as [|m ms IH]; [reflexivity|]. cbn [map filter snd].
  destruct (f m); cbn [List.length]; now rewrite IH.
Qed.

(** The scanning loop, from any state: what it appends to standard
    output, and what it adds to the counter of decoded candidates. *)
Lemma scanLoop_output lines : forall st,
  let f := scanLoop P config lines st in
  let done := firstn (room st) (numberedFrom config (lineNum st) lines) in
  stdout (flowState f)
  = stdout st
    ++ List.concat (map (fun p => outputOf P config (fst p) (snd p)) done)
  /\ totalDecoded (flowState f)
     = totalDecoded st
       + Z.of_nat (List.length
                     (filter (fun p => accepted P config (snd p)) done))
  /\ (verbose config = false -> stderr (flowState f) = stderr st).
Proof.
  induction lines as [|line lines IH]; intros st; cbn zeta.
  - cbn [scanLoop flowState numberedFrom]. rewrite firstn_nil.
    cbn [map List.concat filter List.length]. rewrite app_nil_r.
    split; [reflexivity|]. split; [lia | auto].
  - cbn [scanLoop numberedFrom]. rewrite rangeMatches_eq.
    set (st1 := setLineNum st (lineNum st + 1)).
    set (ms := findBase64Patterns config line).
    assert (Hroom : room st1 = room st) by reflexivity.
    rewrite Hroom, firstn_app, length_map.
    destruct (Nat.leb_spec (List.length ms) (room st)) as [Hle | Hgt].
    + cbn iota.
      destruct (IH (processAll P config ms st1)) as (H1 & H2 & H3).
      cbn zeta in H1, H2, H3.
      destruct (processAll_fields P config ms st1) as (F1 & _ & _ & F4).
      destruct (processAll_counts ms st1) as (C1 & C2).
      rewrite room_processAll, Hroom in H1, H2 by (rewrite Hroom; exact Hle).
      rewrite F1 in H1, H2. change (lineNum st1) with (lineNum st + 1) in *.
      rewrite H1, H2, F4, C1.
      rewrite (firstn_all2 (map (pair (lineNum st + 1)) ms))
        by (rewrite length_map; exact Hle).
      rewrite map_app, concat_app, filter_app, length_app, map_map.
      cbn [fst snd].
      split; [now rewrite <- app_assoc|]. split.
      * rewrite (filter_numbered (accepted P config)).
        change (totalDecoded st1) with (totalDecoded st). lia.
      * intros Hv. rewrite H3, C2 by exact Hv. reflexivity.
    + cbn [flowState].
      destruct (atLimit_fields config
                  (processAll P config (firstn (room st) ms) st1))
        as (_ & _ & _ & A4).
      destruct (atLimit_counts
                  (processAll P config (firstn (room st) ms) st1))
        as (A5 & A6).
      destruct (processAll_fields P config (firstn (room st) ms) st1)
        as (_ & _ & _ & F4).
      destruct (processAll_counts (firstn (room st) ms) st1) as (C1 & C2).
      rewrite A4, A5, F4, C1.
      replace (room st - List.length ms)%nat with 0%nat by lia.
      rewrite firstn_O, app_nil_r, firstn_map.
      rewrite (filter_numbered (accepted P config)), map_map. cbn [fst snd].
      change (lineNum st1) with (lineNum st + 1).
      split; [reflexivity|]. split.
      * change (totalDecoded st1) with (totalDecoded st). reflexivity.
      * intros Hv. rewrite A6, C2 by exact Hv. reflexivity.
Qed.

(** The result of the function: [nil] when it returns at the match
    limit, otherwise what the scanner reports. *)
Lemma findAndDecodeLines_result lines scanErr :
  snd (findAndDecodeLines P config lines scanErr)
  = if (Z.to_nat maxMatches <? List.length (allCandidates config lines))%nat
    then None
    else option_map errRead scanErr.
Proof.
  unfold findAndDecodeLines.
  destruct (scanLoop_spec P config lines initState) as (_ & _ & H3 & H4).
  cbn zeta in H3, H4. rewrite room_init in H3.
  destruct (Nat.ltb_spec (Z.to_nat maxMatches)
              (List.length (allCandidates config lines))) as [Hlt | Hge].
  - destruct (scanLoop P config lines initState) as [st | st res];
      cbn [returned flowState] in *.
    + destruct H3 as [_ H3]. specialize (H3 Hlt). discriminate.
    + specialize (H4 eq_refl). inversion H4. reflexivity.
  - destruct (scanLoop P config lines initState) as [st | st res];
      cbn [returned] in *.
    + unfold afterLoop. destruct scanErr; reflexivity.
    + destruct H3 as [H3 _]. specialize (H3 eq_refl). lia.
Qed.

End RunOutput.

Lemma map_snd_numberedFrom config lines : forall n,
  map snd (numberedFrom config n lines) = allCandidates config lines.
Proof.
  induction lines as [|line lines IH]; intros n; [reflexivity|].
  cbn [numberedFrom]. unfold allCandidates. cbn [map List.concat].
  fold (allCandidates config lines).
  rewrite map_app, map_map, IH. cbn [snd]. now rewrite map_id.
Qed.

Lemma filter_snd {A} (f : gostring -> bool) (l : list (A * gostring)) :
  List.length (filter (fun p => f (snd p)) l)
  = List.length (filter f (map snd l)).
Proof.
  induction l as [|p l IH]; [reflexivity|]. cbn [map filter].
  destruct (f (snd p)); cbn [List.length]; now rewrite IH.
Qed.

Lemma sameSearch_candidates c1 c2 line :
  sameSearch c1 c2 -> findBase64Patterns c1 line = findBase64Patterns c2 line.
Proof.
  destruct c1, c2. unfold sameSearch. cbn. intros (-> & -> & _).
  reflexivity.
Qed.

Lemma sameSearch_numbered c1 c2 lines : forall n,
  sameSearch c1 c2 -> numberedFrom c1 n lines = numberedFrom c2 n lines.
Proof.
  induction lines as [|line lines IH]; intros n H; [reflexivity|].
  cbn [numberedFrom]. rewrite (sameSearch_candidates c1 c2 line H), IH by
    exact H. reflexivity.
Qed.

Lemma sameSearch_outputOf P c1 c2 n m :
  sameSearch c1 c2 -> outputOf P c1 n m = outputOf P c2 n m.
Proof.
  destruct c1, c2. unfold sameSearch. cbn. intros (-> & _ & ->).
  reflexivity.
Qed.

Lemma sameSearch_accepted P c1 c2 m :
  sameSearch c1 c2 -> accepted P c1 m = accepted P c2 m.
Proof.
  destruct c1, c2. unfold sameSearch. cbn. intros (-> & _ & _).
  reflexivity.
Qed.

Lemma findAndDecodeLines_output P config lines scanErr :
  let st := fst (findAndDecodeLines P config lines scanErr) in
  let done := firstn (Z.to_nat maxMatches) (numberedFrom config 0 lines) in
  stdout st
  = List.concat (map (fun p => outputOf P config (fst p) (snd p)) done)
  /\ totalDecoded st
     = Z.of_nat (List.length
                   (filter (fun p => accepted P config (snd p)) done))
  /\ (verbose config = false -> stderr st = []).
Proof.
  cbn zeta. unfold findAndDecodeLines.
  destruct (scanLoop_output P config lines initState) as (H1 & H2 & H3).
  cbn zeta in H1, H2, H3. rewrite room_init in H1, H2.
  change (lineNum initState) with 0 in H1, H2.
  change (stdout initState) with (@nil byte) in H1.
  change (totalDecoded initState) with 0 in H2.
  change (stderr initState) with (@nil byte) in H3.
  rewrite app_nil_l in H1. rewrite Z.add_0_l in H2.
  destruct (scanLoop P config lines initState) as [st | st res];
    cbn [flowState fst] in *.
  - unfold afterLoop. destruct scanErr as [e|]; cbn [fst].
    + auto.
    + destruct (verbose config); cbn [stdout totalDecoded stderr printErr];
        (split; [exact H1 | split; [exact H2 |]]);
        intros Hv; [discriminate | auto].
  - auto.
Qed.

(** X1: standard output of a run is made of the outputs for the first
    10000 candidates of the lines read, each decoded and, with
    [showOffset], marked with the number of its line, in the order of
    the lines and of the candidates within a line. *)
Theorem stdout_is_output_of_first_candidates :
  forall (PrintRanges : Z -> bool) (config : Config) (r : Reader),
    stdout (fst (findAndDecode PrintRanges config r))
    = List.concat
        (map (fun p => outputOf PrintRanges config (fst p) (snd p))
           (firstn (Z.to_nat maxMatches)
              (numberedFrom config 0 (fst (scanLines r))))).
Proof.
  intros P config r. unfold findAndDecode.
  destruct (scanLines r) as [lines scanErr]. cbn [fst].
  apply findAndDecodeLines_output.
Qed.

(** X2: the two counters of a run: [totalFound] is the number of
    candidates passed to the decoder, [totalDecoded] the number of those
    that decode and pass the output filter, and
    [0 <= totalDecoded <= totalFound <= maxMatches]. *)
Theorem counters_count_attempts_and_successes :
  forall (PrintRanges : Z -> bool) (config : Config) (r : Reader),
    let st := fst (findAndDecode PrintRanges config r) in
    totalFound st = Z.of_nat (List.length (attempted st))
    /\ totalDecoded st
       = Z.of_nat (List.length
                     (filter (accepted PrintRanges config) (attempted st)))
    /\ 0 <= totalDecoded st <= totalFound st
    /\ totalFound st <= maxMatches.
Proof.
  intros P config r. cbn zeta. unfold findAndDecode.
  destruct (scanLines r) as [lines scanErr].
  destruct (findAndDecodeLines_attempted P config lines scanErr) as [Ha Ht].
  destruct (findAndDecodeLines_output P config lines scanErr) as (_ & Hd & _).
  cbn zeta in Ha, Ht, Hd.
  assert (Hdec : totalDecoded (fst (findAndDecodeLines P config lines scanErr))
                 = Z.of_nat (List.length
                      (filter (accepted P config)
                         (attempted
                            (fst (findAndDecodeLines P config lines scanErr)))))).
  { rewrite Hd, Ha, filter_snd, <- firstn_map, map_snd_numberedFrom.
    reflexivity. }
  split; [exact Ht|]. split; [exact Hdec|].
  pose proof (filter_length_le (accepted P config)
                (attempted (fst (findAndDecodeLines P config lines scanErr)))).
  pose proof maxMatches_nonneg.
  rewrite Hdec, Ht. split; [lia|].
  rewrite Ha, length_firstn. lia.
Qed.

(** X3: without the flag [-v] a run writes nothing to the diagnostic
    stream, whatever the input: no decode error, no warning at the match
    limit, no statistics. *)
Theorem quiet_run_writes_no_diagnostics :
  forall (PrintRanges : Z -> bool) (config : Config) (r : Reader),
    config.(verbose) = false ->
    stderr (fst (findAndDecode PrintRanges config r)) = [].
Proof.
  intros P config r Hv. unfold findAndDecode.
  destruct (scanLines r) as [lines scanErr].
  apply findAndDecodeLines_output, Hv.
Qed.

Lemma quiet_run_writes_no_diagnostics_witness :
  stderr (fst (findAndDecode (fun _ => true) defaultConfig
                 (fileOf (B "user=aGVsbG8gd29ybGQ=&id=5")))) = [].
Proof.
  apply (quiet_run_writes_no_diagnostics (fun _ => true) defaultConfig).
  reflexivity.
Defined.

(** X4: [findAndDecode] fails only through the scanner: it returns
    [nil] when the lines read hold more candidates than the match limit,
    and otherwise the scanner's error, if there is one, wrapped as a
    read error. *)
Theorem findAndDecode_fails_only_on_read_error :
  forall (PrintRanges : Z -> bool) (config : Config) (r : Reader),
    snd (findAndDecode PrintRanges config r)
    = if maxMatches
         <? Z.of_nat (List.length
                        (allCandidates config (fst (scanLines r))))
      then None
      else option_map errRead (snd (scanLines r)).
Proof.
  intros P config r. unfold findAndDecode.
  destruct (scanLines r) as [lines scanErr]. cbn [fst snd].
  rewrite findAndDecodeLines_result. pose proof maxMatches_nonneg.
  destruct (Nat.ltb_spec (Z.to_nat maxMatches)
              (List.length (allCandidates config lines)));
    destruct (Z.ltb_spec maxMatches
                (Z.of_nat (List.length (allCandidates config lines))));
    try reflexivity; lia.
Qed.

(** X5: the flags [-v] and [-max-size] have no part in what
    [findAndDecode] prints, counts or returns: two configurations with
    the same [urlSafe], [minLength] and [showOffset] give the same
    standard output, the same counters and the same result. *)
Theorem verbose_does_not_change_output :
  forall (PrintRanges : Z -> bool) (c1 c2 : Config) (r : Reader),
    sameSearch c1 c2 ->
    let run1 := findAndDecode PrintRanges c1 r in
    let run2 := findAndDecode PrintRanges c2 r in
    stdout (fst run1) = stdout (fst run2)
    /\ totalFound (fst run1) = totalFound (fst run2)
    /\ totalDecoded (fst run1) = totalDecoded (fst run2)
    /\ snd run1 = snd run2.
Proof.
  intros P c1 c2 r Hs. cbn zeta. unfold findAndDecode.
  destruct (scanLines r) as [lines scanErr].
  destruct (findAndDecodeLines_output P c1 lines scanErr) as (O1 & D1 & _).
  destruct (findAndDecodeLines_output P c2 lines scanErr) as (O2 & D2 & _).
  destruct (findAndDecodeLines_attempted P c1 lines scanErr) as [A1 T1].
  destruct (findAndDecodeLines_attempted P c2 lines scanErr) as [A2 T2].
  cbn zeta in *.
  assert (Hc : allCandidates c1 lines = allCandidates c2 lines).
  { rewrite <- (map_snd_numberedFrom c1 lines 0),
            <- (map_snd_numberedFrom c2 lines 0).
    now rewrite (sameSearch_numbered c1 c2 lines 0 Hs). }
  rewrite O1, O2, D1, D2, T1, T2, A1, A2, !findAndDecodeLines_result.
  rewrite (sameSearch_numbered c1 c2 lines 0 Hs), Hc.
  split; [|split; [reflexivity|split; [|reflexivity]]].
  - f_equal. apply map_ext. intros p. now apply sameSearch_outputOf.
  - f_equal. f_equal. apply filter_ext. intros p.
    now apply sameSearch_accepted.
Qed.

Lemma verbose_does_not_change_output_witness :
  stdout (fst (findAndDecode (fun _ => true) defaultConfig
                 (fileOf (B "user=aGVsbG8gd29ybGQ=&id=5"))))
  = stdout (fst (findAndDecode (fun _ => true) verboseConfig
                   (fileOf (B "user=aGVsbG8gd29ybGQ=&id=5")))).
Proof.
  refine (proj1 (verbose_does_not_change_output (fun _ => true)
            defaultConfig verboseConfig
            (fileOf (B "user=aGVsbG8gd29ybGQ=&id=5")) _)).
  repeat split.
Defined.

(** ** The candidate finder *)

(** X6: the candidates of a line are pairwise distinct, and they are
    exactly the matches of the standard pattern (and, with [urlSafe], of
    the URL-safe pattern) that are at least [minLength] long and pass the
    length validation; each of them is at least four alphabet characters
    followed by at most two ['=']. *)
Theorem candidates_are_the_distinct_valid_matches :
  forall (config : Config) (line : gostring),
    NoDup (findBase64Patterns config line)
    /\ (forall m,
          In m (findBase64Patterns config line) <->
          (In m (FindAllString stdB64Pattern line)
           \/ (config.(urlSafe) = true
               /\ In m (FindAllString urlB64Pattern line)))
          /\ config.(minLength) <= len m
          /\ isValidBase64Length m = true)
    /\ (forall m,
          In m (findBase64Patterns config line) ->
          4 <= len m
          /\ (matchesInFull stdClass m \/ matchesInFull urlClass m)).
Proof.
  intros config line. split; [apply findBase64Patterns_NoDup|]. split.
  - intros m. rewrite findBase64Patterns_In. unfold admissible.
    rewrite andb_true_iff, Z.leb_le. tauto.
  - intros m Hin. pose proof (candidate_shape _ _ _ Hin) as Hs.
    split; [|exact Hs].
    destruct Hs as [(run & pad & -> & Hn & _) | (run & pad & -> & Hn & _)];
      unfold len; rewrite length_app; lia.
Qed.

Lemma fold_collect_ext c1 c2 ms : forall st,
  (forall m, In m ms -> admissible c1 m = admissible c2 m) ->
  fold_left (collectMatch c1) ms st = fold_left (collectMatch c2) ms st.
Proof.
  induction ms as [|m ms IH]; intros st H; [reflexivity|].
  cbn [fold_left].
  assert (Hm : collectMatch c1 st m = collectMatch c2 st m).
  { unfold collectMatch. destruct st as [matches seen].
    pose proof (H m (or_introl eq_refl)) as Ha. unfold admissible in Ha.
    rewrite Ha. reflexivity. }
  rewrite Hm. apply IH. intros x Hx. apply H. now right.
Qed.

Lemma match_admissible_low cls config line m :
  config.(minLength) <= 4 -> In m (FindAllString cls line) ->
  admissible config m = isValidBase64Length m.
Proof.
  intros Hmin Hin. unfold admissible.
  pose proof (FindAllString_full cls line) as F. rewrite Forall_forall in F.
  destruct (F m Hin) as (run & pad & -> & Hn & _).
  destruct (Z.leb_spec (minLength config) (len (run ++ pad))) as [_ | Hlt];
    [reflexivity|].
  unfold len in Hlt. rewrite length_app in Hlt. lia.
Qed.

(** X7: a value of [-min] up to 4 changes nothing: every match of the
    patterns has at least four characters, so two configurations with the
    same [urlSafe] and both with [minLength <= 4] find the same
    candidates. *)
Theorem min_flag_up_to_four_is_idle :
  forall (c1 c2 : Config) (line : gostring),
    c1.(urlSafe) = c2.(urlSafe) ->
    c1.(minLength) <= 4 -> c2.(minLength) <= 4 ->
    findBase64Patterns c1 line = findBase64Patterns c2 line.
Proof.
  intros c1 c2 line Hu H1 H2. unfold findBase64Patterns. rewrite Hu.
  rewrite (fold_collect_ext c1 c2 (FindAllString stdB64Pattern line)).
  - destruct (urlSafe c2); [|reflexivity].
    rewrite (fold_collect_ext c1 c2 (FindAllString urlB64Pattern line));
      [reflexivity|].
    intros m Hm.
    rewrite (match_admissible_low urlB64Pattern c1 line m H1 Hm).
    now rewrite (match_admissible_low urlB64Pattern c2 line m H2 Hm).
  - intros m Hm.
    rewrite (match_admissible_low stdB64Pattern c1 line m H1 Hm).
    now rewrite (match_admissible_low stdB64Pattern c2 line m H2 Hm).
Qed.

Lemma min_flag_up_to_four_is_idle_witness :
  findBase64Patterns (mkConfig false 0 maxFileSize false false)
    (B "user=aGVsbG8gd29ybGQ=&id=5")
  = findBase64Patterns defaultConfig (B "user=aGVsbG8gd29ybGQ=&id=5").
Proof.
  apply min_flag_up_to_four_is_idle.
  - reflexivity.
  - vm_compute. discriminate.
  - vm_compute. discriminate.
Defined.

(** ** Length validation and padding *)

(** X8: [isValidBase64Length] looks at the text before the trailing
    ['='] only: appending any number of ['='] to a string does not change
    its verdict, and a string made of ['='] alone is accepted. *)
Theorem length_validation_ignores_padding :
  forall (s pad : gostring),
    forallb isPad pad = true ->
    isValidBase64Length (s ++ pad) = isValidBase64Length s
    /\ isValidBase64Length pad = true.
Proof.
  intros s pad Hpad. unfold isValidBase64Length. split.
  - rewrite TrimRightPad_app_pads by exact Hpad. reflexivity.
  - rewrite (TrimRightPad_pads pad Hpad). reflexivity.
Qed.

Lemma length_validation_ignores_padding_witness :
  isValidBase64Length (B "aGVsbG8gd29ybGQ" ++ B "===")
  = isValidBase64Length (B "aGVsbG8gd29ybGQ").
Proof.
  refine (proj1 (length_validation_ignores_padding
                   (B "aGVsbG8gd29ybGQ") (B "===") _)).
  reflexivity.
Defined.

(** ** [truncate] *)

Lemma firstn_firstn_app {A} n (l t : list A) :
  (n <= List.length l)%nat -> firstn n (firstn n l ++ t) = firstn n l.
Proof.
  intros H. rewrite firstn_app, firstn_firstn, Nat.min_id.
  rewrite length_firstn, Nat.min_l by exact H.
  rewrite Nat.sub_diag, firstn_O. apply app_nil_r.
Qed.

(** X9: for a limit that is not negative, [truncate] returns a string of
    at most [maxLen + 3] bytes that starts with the first [maxLen] bytes
    of its argument; it returns the argument itself when that is short
    enough and marks a cut with three dots otherwise; truncating twice
    is truncating once. *)
Theorem truncate_bounds_and_idempotence :
  forall (s : gostring) (maxLen : Z),
    0 <= maxLen ->
    len (truncate s maxLen) <= maxLen + 3
    /\ firstn (Z.to_nat maxLen) (truncate s maxLen)
       = firstn (Z.to_nat maxLen) s
    /\ (len s <= maxLen -> truncate s maxLen = s)
    /\ (maxLen < len s ->
        truncate s maxLen = firstn (Z.to_nat maxLen) s ++ B "..."
        /\ len (truncate s maxLen) = maxLen + 3)
    /\ truncate (truncate s maxLen) maxLen = truncate s maxLen.
Proof.
  intros s maxLen H0. unfold truncate, len.
  destruct (Z.leb_spec (Z.of_nat (List.length s)) maxLen) as [Hle | Hgt].
  - destruct (Z.leb_spec (Z.of_nat (List.length s)) maxLen); [|lia].
    repeat split; try lia; auto.
  - assert (Hn : (Z.to_nat maxLen <= List.length s)%nat) by lia.
    assert (Hlen : Z.of_nat (List.length
                     (firstn (Z.to_nat maxLen) s ++ B "...")) = maxLen + 3).
    { rewrite length_app, length_firstn, Nat.min_l by exact Hn.
      change (List.length (B "...")) with 3%nat. lia. }
    rewrite Hlen.
    destruct (Z.leb_spec (maxLen + 3) maxLen); [lia|].
    rewrite firstn_firstn_app by exact Hn.
    repeat split; try lia; auto.
Qed.

Lemma truncate_bounds_and_idempotence_witness :
  len (truncate (B "aGVsbG8gd29ybGQgaGVsbG8gd29ybGQ=") 20) <= 20 + 3.
Proof.
  refine (proj1 (truncate_bounds_and_idempotence
                   (B "aGVsbG8gd29ybGQgaGVsbG8gd29ybGQ=") 20 _)).
  vm_compute. discriminate.
Defined.

(** ** The output filter on ASCII text and on control characters *)

Section AsciiFilter.

Variable P : Z -> bool.

Lemma ascii_byte_class b :
  code b < 128 ->
  countsAsPrintable P (code b) = asciiCounted b
  /\ tolerated P (code b) = asciiCounted b || asciiNeutral b.
Proof.
  intros H. destruct b; vm_compute in H; try discriminate H;
    vm_compute; split; reflexivity.
Qed.

Lemma control_not_tolerated b :
  asciiControl b = true -> code b < 128 /\ tolerated P (code b) = false.
Proof.
  intros H. destruct b; vm_compute in H; try discriminate H;
    vm_compute; split; reflexivity.
Qed.

Lemma ascii_runes_class s :
  Forall (fun b => code b < 128) s ->
  forallb (tolerated P) (map code s)
  = forallb (fun b => asciiCounted b || asciiNeutral b) s
  /\ printableRunes P (map code s)
     = Z.of_nat (List.length (filter asciiCounted s)).
Proof.
  unfold printableRunes.
  induction 1 as [|b s Hb Hs [IH1 IH2]]; [split; reflexivity|].
  destruct (ascii_byte_class b Hb) as [Hc Ht].
  cbn [map forallb filter]. rewrite Ht, Hc, IH1. split; [reflexivity|].
  destruct (asciiCounted b); cbn [List.length];
    rewrite ?Nat2Z.inj_succ; lia.
Qed.

Lemma firstInfo_low b0 sz lo hi :
  firstInfo b0 = Some (sz, lo, hi) -> 128 <= lo.
Proof.
  unfold firstInfo.
  repeat match goal with
         | |- context [if ?c then _ else _] => destruct c
         end; intros H; inversion H; subst; lia.
Qed.

(** The bytes a rune is decoded from: one ASCII byte, which is the rune,
    or bytes from 128 on. *)
Lemma DecodeRune_consumes c rest :
  (code c < 128 /\ DecodeRune (c :: rest) = (code c, 1%nat))
  \/ (128 <= code c
      /\ (1 <= snd (DecodeRune (c :: rest)))%nat
      /\ Forall (fun x => 128 <= code x)
           (firstn (snd (DecodeRune (c :: rest))) (c :: rest))).
Proof.
  unfold DecodeRune.
  destruct (Z.ltb_spec (code c) 128) as [Hlt | Hge]; [left; auto|].
  right. split; [exact Hge|].
  assert (H1 : (1 <= 1)%nat /\ Forall (fun x => 128 <= code x)
                                 (firstn 1 (c :: rest)))
    by (split; [lia | repeat constructor; exact Hge]).
  destruct (firstInfo c) as [[[sz lo] hi]|] eqn:Ef; [|exact H1].
  apply firstInfo_low in Ef.
  destruct (List.length (c :: rest) <? sz)%nat; [exact H1|].
  destruct rest as [|b1 t1]; [exact H1|].
  destruct (in_range lo hi b1) eqn:E1; cbn [negb]; [|exact H1].
  assert (Hb1 : 128 <= code b1).
  { unfold in_range in E1. apply andb_true_iff in E1 as [E1 _].
    apply Z.leb_le in E1. lia. }
  destruct (sz <=? 2)%nat;
    [cbn [snd firstn]; split; [lia | repeat constructor; assumption]|].
  destruct t1 as [|b2 t2]; [exact H1|].
  destruct (isCont b2) eqn:E2; cbn [negb]; [|exact H1].
  assert (Hb2 : 128 <= code b2).
  { unfold isCont, in_range in E2. apply andb_true_iff in E2 as [E2 _].
    now apply Z.leb_le in E2. }
  destruct (sz <=? 3)%nat;
    [cbn [snd firstn]; split; [lia | repeat constructor; assumption]|].
  destruct t2 as [|b3 t3]; [exact H1|].
  destruct (isCont b3) eqn:E3; cbn [negb]; [|exact H1].
  assert (Hb3 : 128 <= code b3).
  { unfold isCont, in_range in E3. apply andb_true_iff in E3 as [E3 _].
    now apply Z.leb_le in E3. }
  cbn [snd firstn]. split; [lia | repeat constructor; assumption].
Qed.

(** An ASCII byte of a string is one of its runes, whatever surrounds
    it. *)
Lemma ascii_byte_is_rune : forall fuel s b,
  (List.length s <= fuel)%nat -> In b s -> code b < 128 ->
  In (code b) (runesFrom fuel s).
Proof.
  induction fuel as [|f IH]; intros s b Hlen Hin Hb.
  - destruct s; [destruct Hin | simpl in Hlen; lia].
  - destruct s as [|c rest]; [destruct Hin|]. cbn [runesFrom].
    destruct (DecodeRune_consumes c rest) as [[Hc E] | (Hc & Hw & Hall)].
    + rewrite E. cbn [skipn]. destruct Hin as [-> | Hin];
        [left; reflexivity|].
      right. apply IH; auto. simpl in Hlen. lia.
    + destruct (DecodeRune (c :: rest)) as [r w]. cbn [snd] in Hw, Hall.
      right. rewrite <- (firstn_skipn w (c :: rest)) in Hin.
      apply in_app_or in Hin as [Hin | Hin].
      * rewrite Forall_forall in Hall. specialize (Hall b Hin). lia.
      * apply IH; auto. rewrite length_skipn. lia.
Qed.

End AsciiFilter.

(** X10: on ASCII text the filter is the rule of the comment: the text
    is accepted exactly when it is not empty, every byte is printable
    ASCII or one of tab, newline, vertical tab, form feed and carriage
    return, and at least three quarters of the bytes are printable ASCII,
    tab, newline or carriage return. *)
Theorem isValidOutput_on_ascii :
  forall (PrintRanges : Z -> bool) (s : gostring),
    Forall (fun b => code b < 128) s ->
    (isValidOutput PrintRanges s = true <->
     s <> []
     /\ forallb (fun b => asciiCounted b || asciiNeutral b) s = true
     /\ 3 * len s <= 4 * Z.of_nat (List.length (filter asciiCounted s))).
Proof.
  intros P s Hs. rewrite isValidOutput_spec, (runes_ascii s Hs).
  destruct (ascii_runes_class P s Hs) as [-> ->]. reflexivity.
Qed.

Lemma isValidOutput_on_ascii_witness :
  isValidOutput (fun _ => true) (B "hello world") = true <->
  B "hello world" <> []
  /\ forallb (fun b => asciiCounted b || asciiNeutral b) (B "hello world")
     = true
  /\ 3 * len (B "hello world")
     <= 4 * Z.of_nat (List.length (filter asciiCounted (B "hello world"))).
Proof.
  apply isValidOutput_on_ascii.
  apply Forall_forall. intros b Hb.
  assert (H : forallb (fun b => code b <? 128) (B "hello world") = true)
    by reflexivity.
  rewrite forallb_forall in H. apply Z.ltb_lt, H, Hb.
Defined.

(** X11: a text that holds an ASCII control character other than tab,
    newline, vertical tab, form feed and carriage return is rejected,
    wherever the character stands and whatever else the text holds. *)
Theorem control_character_rejects :
  forall (PrintRanges : Z -> bool) (s : gostring) (b : byte),
    In b s -> asciiControl b = true ->
    isValidOutput PrintRanges s = false.
Proof.
  intros P s b Hin Hc.
  destruct (control_not_tolerated P b Hc) as [Hb Ht].
  destruct (isValidOutput P s) eqn:E; [|reflexivity].
  apply isValidOutput_spec in E as (_ & Hall & _).
  pose proof (ascii_byte_is_rune (List.length s) s b (le_n _) Hin Hb) as Hr.
  rewrite forallb_forall in Hall. specialize (Hall (code b) Hr).
  congruence.
Qed.

Lemma control_character_rejects_witness :
  isValidOutput (fun _ => true) (B "hello" ++ [x00] ++ B "world") = false.
Proof.
  apply (control_character_rejects (fun _ => true) _ x00).
  - apply in_or_app. right. left. reflexivity.
  - reflexivity.
Defined.

(** ** The scanner: line ends and long lines *)

Lemma noLineEnd_noLF l : noLineEnd l -> Forall (fun b => code b <> 10) l.
Proof. intros H. eapply Forall_impl; [|exact H]. simpl. tauto. Qed.

Lemma noLineEnd_noCR l : noLineEnd l -> Forall (fun b => code b <> 13) l.
Proof. intros H. eapply Forall_impl; [|exact H]. simpl. tauto. Qed.

Lemma dropCR_snoc l : dropCR (l ++ [x0d]) = l.
Proof.
  unfold dropCR. rewrite rev_app_distr. cbn [rev app].
  change (is_byte 13 x0d) with true. cbn iota. apply rev_involutive.
Qed.

(** Reading one line that ends with a newline. *)
Lemma scanFrom_newline fault l : forall cur n rest,
  n = len cur -> Forall (fun b => code b <> 10) l ->
  n + len l < chunkSize ->
  scanFrom fault cur n (l ++ x0a :: rest) =
  (dropCR (rev cur ++ l) :: fst (scanFrom fault [] 0 rest),
   snd (scanFrom fault [] 0 rest)).
Proof.
  unfold len.
  induction l as [|c l IH]; intros cur n rest Hn Hl Hlen.
  - cbn [app scanFrom]. change (is_byte 10 x0a) with true. cbn iota.
    rewrite app_nil_r. destruct (scanFrom fault [] 0 rest). reflexivity.
  - cbn [app scanFrom]. inversion Hl as [|? ? Hc Hl']; subst.
    unfold is_byte at 1. destruct (Z.eqb_spec (code c) 10); [contradiction|].
    cbn [List.length] in Hlen.
    destruct (Z.leb_spec chunkSize (Z.of_nat (List.length cur) + 1)); [lia|].
    rewrite IH; auto.
    + cbn [rev]. rewrite <- app_assoc. reflexivity.
    + cbn [List.length]. lia.
    + cbn [List.length]. lia.
Qed.

(** A line that does not fit the buffer ends the scan. *)
Lemma scanFrom_too_long fault long : forall cur n rest,
  0 <= n < chunkSize -> Forall (fun b => code b <> 10) long ->
  chunkSize <= n + len long ->
  scanFrom fault cur n (long ++ rest) = ([], Some ErrTooLong).
Proof.
  unfold len.
  induction long as [|c long IH]; intros cur n rest Hn Hl Hlen.
  - simpl in Hlen. lia.
  - cbn [app scanFrom]. inversion Hl as [|? ? Hc Hl']; subst.
    unfold is_byte at 1. destruct (Z.eqb_spec (code c) 10); [contradiction|].
    destruct (Z.leb_spec chunkSize (n + 1)); [reflexivity|].
    apply IH; auto; [lia|]. cbn [List.length] in Hlen. lia.
Qed.

Lemma scanFrom_join fault ls tail :
  Forall plainLine ls ->
  scanFrom fault [] 0 (joinLines [x0a] ls ++ tail) =
  (ls ++ fst (scanFrom fault [] 0 tail), snd (scanFrom fault [] 0 tail)).
Proof.
  unfold joinLines.
  induction 1 as [|l ls [Hno Hlen] Hls IH].
  - cbn [map List.concat app]. destruct (scanFrom fault [] 0 tail).
    reflexivity.
  - cbn [map List.concat]. rewrite <- !app_assoc. cbn [app].
    rewrite scanFrom_newline;
      [| reflexivity | now apply noLineEnd_noLF
       | change (len []) with 0 in *; unfold len in *; simpl; lia ].
    rewrite IH. cbn [fst snd rev app].
    rewrite dropCR_noCR by now apply noLineEnd_noCR. reflexivity.
Qed.

Lemma scanFrom_join_crlf fault ls tail :
  Forall plainLine ls ->
  scanFrom fault [] 0 (joinLines [x0d; x0a] ls ++ tail) =
  (ls ++ fst (scanFrom fault [] 0 tail), snd (scanFrom fault [] 0 tail)).
Proof.
  unfold joinLines.
  induction 1 as [|l ls [Hno Hlen] Hls IH].
  - cbn [map List.concat app]. destruct (scanFrom fault [] 0 tail).
    reflexivity.
  - cbn [map List.concat]. rewrite <- !app_assoc. cbn [app].
    change (l ++ x0d :: x0a :: List.concat (map (fun l0 => l0 ++ [x0d; x0a]) ls)
              ++ tail)
      with (l ++ [x0d] ++ x0a
              :: (List.concat (map (fun l0 => l0 ++ [x0d; x0a]) ls) ++ tail)).
    rewrite app_assoc.
    rewrite scanFrom_newline.
    + rewrite IH. cbn [fst snd rev app]. rewrite dropCR_snoc. reflexivity.
    + reflexivity.
    + apply Forall_app. split; [now apply noLineEnd_noLF|].
      repeat constructor. discriminate.
    + unfold len in *. rewrite length_app. simpl. lia.
Qed.

(** X12: line ends.  For lines without line-end characters that fit the
    buffer, the scanner gives back the lines of a text whether they end
    with a newline or with a carriage return and a newline, and whether
    or not the last line has a line end; so [findAndDecode] gives the
    same outcome on all these forms of the text. *)
Theorem line_ends_do_not_matter :
  forall (PrintRanges : Z -> bool) (config : Config)
         (ls : list gostring) (last : gostring),
    Forall plainLine ls -> plainLine last -> last <> [] ->
    scanLines (fileOf (joinLines [x0a] (ls ++ [last])))
      = (ls ++ [last], None)
    /\ scanLines (fileOf (joinLines [x0d; x0a] (ls ++ [last])))
       = (ls ++ [last], None)
    /\ scanLines (fileOf (joinLines [x0a] ls ++ last)) = (ls ++ [last], None)
    /\ findAndDecode PrintRanges config
         (fileOf (joinLines [x0d; x0a] (ls ++ [last])))
       = findAndDecode PrintRanges config
           (fileOf (joinLines [x0a] (ls ++ [last])))
    /\ findAndDecode PrintRanges config (fileOf (joinLines [x0a] ls ++ last))
       = findAndDecode PrintRanges config
           (fileOf (joinLines [x0a] (ls ++ [last]))).
Proof.
  intros P config ls last Hls Hlast Hne.
  assert (Hall : Forall plainLine (ls ++ [last]))
    by (apply Forall_app; split;
        [exact Hls | constructor; [exact Hlast | constructor]]).
  assert (E1 : scanLines (fileOf (joinLines [x0a] (ls ++ [last])))
               = (ls ++ [last], None)).
  { unfold scanLines, fileOf. cbn [fault content].
    rewrite <- (app_nil_r (joinLines [x0a] (ls ++ [last]))).
    rewrite scanFrom_join by exact Hall. cbn [scanFrom fst snd].
    now rewrite app_nil_r. }
  assert (E2 : scanLines (fileOf (joinLines [x0d; x0a] (ls ++ [last])))
               = (ls ++ [last], None)).
  { unfold scanLines, fileOf. cbn [fault content].
    rewrite <- (app_nil_r (joinLines [x0d; x0a] (ls ++ [last]))).
    rewrite scanFrom_join_crlf by exact Hall. cbn [scanFrom fst snd].
    now rewrite app_nil_r. }
  assert (E3 : scanLines (fileOf (joinLines [x0a] ls ++ last))
               = (ls ++ [last], None)).
  { unfold scanLines, fileOf. cbn [fault content].
    rewrite scanFrom_join by exact Hls.
    destruct Hlast as [Hno Hlen].
    rewrite scanFrom_line;
      [| reflexivity | now apply noLineEnd_noLF
       | unfold len in *; simpl; lia ].
    cbn [rev app fst snd]. destruct last as [|c last]; [congruence|].
    rewrite dropCR_noCR by now apply noLineEnd_noCR. reflexivity. }
  split; [exact E1|]. split; [exact E2|]. split; [exact E3|].
  unfold findAndDecode. rewrite E1, E2, E3. split; reflexivity.
Qed.

Lemma plainLine_forallb l :
  forallb (fun b => negb (is_byte 10 b) && negb (is_byte 13 b)) l = true ->
  len l + 1 < chunkSize -> plainLine l.
Proof. intros H1 H2. split; [now apply noLineEnd_forallb | exact H2]. Qed.

Lemma line_ends_do_not_matter_witness :
  scanLines (fileOf (joinLines [x0d; x0a]
                       ([B "user=aGVsbG8gd29ybGQ="] ++ [B "id=5"])))
  = ([B "user=aGVsbG8gd29ybGQ="] ++ [B "id=5"], None).
Proof.
  refine (proj1 (proj2 (line_ends_do_not_matter (fun _ => true)
            defaultConfig [B "user=aGVsbG8gd29ybGQ="] (B "id=5") _ _ _))).
  - constructor; [|constructor].
    split; [apply noLineEnd_forallb; reflexivity | reflexivity].
  - split; [apply noLineEnd_forallb; reflexivity | reflexivity].
  - discriminate.
Defined.

Lemma noLF_forallb l :
  forallb (fun b => negb (is_byte 10 b)) l = true ->
  Forall (fun b => code b <> 10) l.
Proof.
  intros H. apply Forall_forall. intros b Hb.
  rewrite forallb_forall in H. specialize (H b Hb). unfold is_byte in H.
  destruct (Z.eqb_spec (code b) 10); [discriminate | assumption].
Qed.

(** X13: a line of 65536 bytes or more ends the run.  When such a line
    follows lines that fit the buffer, the scanner delivers those lines
    and reports that a token is too long; [findAndDecode] has printed
    what the lines before it gave and returns a read error, unless it
    had returned at the match limit before. *)
Theorem long_line_aborts_run :
  forall (PrintRanges : Z -> bool) (config : Config)
         (ls : list gostring) (long rest : gostring),
    Forall plainLine ls ->
    Forall (fun b => code b <> 10) long ->
    chunkSize <= len long ->
    let r := fileOf (joinLines [x0a] ls ++ long ++ rest) in
    scanLines r = (ls, Some ErrTooLong)
    /\ stdout (fst (findAndDecode PrintRanges config r))
       = stdout (fst (findAndDecode PrintRanges config
                        (fileOf (joinLines [x0a] ls))))
    /\ snd (findAndDecode PrintRanges config r)
       = if maxMatches <? Z.of_nat (List.length (allCandidates config ls))
         then None
         else Some (errRead ErrTooLong).
Proof.
  intros P config ls long rest Hls Hlong Hlen. cbn zeta.
  assert (E : scanLines (fileOf (joinLines [x0a] ls ++ long ++ rest))
              = (ls, Some ErrTooLong)).
  { unfold scanLines, fileOf. cbn [fault content].
    rewrite scanFrom_join by exact Hls.
    rewrite scanFrom_too_long; auto.
    - cbn [fst snd]. now rewrite app_nil_r.
    - unfold chunkSize. lia. }
  assert (E0 : scanLines (fileOf (joinLines [x0a] ls)) = (ls, None)).
  { unfold scanLines, fileOf. cbn [fault content].
    rewrite <- (app_nil_r (joinLines [x0a] ls)).
    rewrite scanFrom_join by exact Hls. cbn [scanFrom fst snd].
    now rewrite app_nil_r. }
  split; [exact E|]. unfold findAndDecode. rewrite E, E0. split.
  - destruct (findAndDecodeLines_output P config ls (Some ErrTooLong))
      as (-> & _).
    destruct (findAndDecodeLines_output P config ls None) as (-> & _).
    reflexivity.
  - rewrite findAndDecodeLines_result. pose proof maxMatches_nonneg.
    destruct (Nat.ltb_spec (Z.to_nat maxMatches)
                (List.length (allCandidates config ls)));
      destruct (Z.ltb_spec maxMatches
                  (Z.of_nat (List.length (allCandidates config ls))));
      try reflexivity; lia.
Qed.

Lemma long_line_aborts_run_witness :
  snd (findAndDecode (fun _ => true) defaultConfig
         (fileOf (joinLines [x0a] [B "aGVsbG8gd29ybGQ="]
                  ++ repeat x41 (Z.to_nat chunkSize) ++ [])))
  = if maxMatches
       <? Z.of_nat (List.length
                      (allCandidates defaultConfig [B "aGVsbG8gd29ybGQ="]))
    then None
    else Some (errRead ErrTooLong).
Proof.
  refine (proj2 (proj2 (long_line_aborts_run (fun _ => true) defaultConfig
            [B "aGVsbG8gd29ybGQ="] (repeat x41 (Z.to_nat chunkSize)) []
            _ _ _))).
  - constructor; [|constructor].
    split; [apply noLineEnd_forallb; reflexivity | reflexivity].
  - apply noLF_forallb. vm_compute. reflexivity.
  - vm_compute. discriminate.
Defined.
